(** * kirbot: the CPL calculator and the /lead wizard of bot.js

    A shallow embedding of [src/bot.js] (and of its earlier revision
    [src/unnamed/part_000], which has the same calculator, the same [/calc]
    and [/lead] handlers and a message handler without the menu switch).

    - A JavaScript Number is a binary64 value: Rocq's primitive [float],
      whose operations are specified by [SpecFloat] (round to nearest, ties
      to even), exactly the arithmetic of [*], [/] and [+] in the source.
    - A JavaScript string is a Rocq [string] holding its UTF-8 bytes; the
      functions that look at characters ([Number], [trim], [split]) decode
      it to code points first.
    - [sessions] (a [Map] keyed by chat id) is a [gmap Z session]; a session
      object mutated in place is written back under its key.
    - [bot.sendMessage] is the reply a handler returns. *)

From Stdlib Require Import ZArith QArith Qabs Qround Floats Ascii String List Lia.
From stdpp Require Import gmap strings.

Set Warnings "-inexact-float".

Local Open Scope Z_scope.

(** ** JavaScript numbers *)

Module JsNumber.

(** The Number nearest to the decimal [(-1)^neg * d * 10^e10]: what
    StringToNumber returns for a decimal literal with digits [d] and
    decimal exponent [e10].  [SFdiv] divides the two integers exactly and
    rounds once, to nearest with ties to even; it overflows to an infinity. *)
Definition decimal_value (neg : bool) (d : Z) (e10 : Z) : float :=
  match d with
  | Zpos p =>
      SF2Prim (SFdiv prec emax
                 (S754_finite neg (p * Z.to_pos (10 ^ Z.max e10 0)) 0)
                 (S754_finite false (Z.to_pos (10 ^ Z.max (- e10) 0)) 0))
  | _ => if neg then PrimFloat.neg_zero else PrimFloat.zero
  end.

(** [Number.isNaN]. *)
Definition isNaN (x : float) : bool := is_nan x.

(** ToNumber of a property that may be absent: [undefined] becomes NaN. *)
Definition of_field (o : option float) : float :=
  match o with Some x => x | None => PrimFloat.nan end.

(** A destructuring default [field = 0]: used when the property is absent. *)
Definition or_zero (o : option float) : float :=
  match o with Some x => x | None => PrimFloat.zero end.

(** The integer [n] for which [n / 10^4 - m * 2^e] is as close to zero as
    possible, the larger one when there are two (step 9.a of
    Number.prototype.toFixed, on the exact value of the Number). *)
Definition fixed_digits (m : positive) (e : Z) : Z :=
  match e with
  | Zneg p => (2 * Zpos m * 10 ^ 4 + 2 ^ Zpos p) / 2 ^ (Zpos p + 1)
  | _ => Zpos m * 2 ^ e * 10 ^ 4
  end.

(** [+x.toFixed(4)].  [toFixed] returns ["NaN"], ["Infinity"] or
    ["-Infinity"] for a Number that is not finite and [String(x)] when
    [|x| >= 10^21]; unary plus reads each of these back as [x].  Otherwise
    the string is the sign of [x] (none for a zero), the digits of
    [fixed_digits] and a point before the last four, which unary plus reads
    as the nearest Number. *)
Definition toFixed4 (x : float) : float :=
  match Prim2SF x with
  | S754_nan => x
  | S754_infinity _ => x
  | S754_zero _ => PrimFloat.zero
  | S754_finite s m e =>
      if (1e21 <=? abs x)%float then x
      else decimal_value s (fixed_digits m e) (-4)
  end.

End JsNumber.

Export JsNumber.

(** ** JavaScript strings *)

Module JsString.

(** Code points of a UTF-8 string.  [pending] continuation bytes are still
    expected for the code point accumulated in [acc]. *)
Fixpoint decode (pending : nat) (acc : N) (s : string) : list N :=
  match s with
  | EmptyString => []
  | String a r =>
      let b := N_of_ascii a in
      match pending with
      | O =>
          if (b <? 128)%N then b :: decode 0 0 r
          else if (b <? 224)%N then decode 1 (b - 192) r
          else if (b <? 240)%N then decode 2 (b - 224) r
          else decode 3 (b - 240) r
      | S O => (acc * 64 + (b - 128))%N :: decode 0 0 r
      | S k => decode k (acc * 64 + (b - 128))%N r
      end
  end.

Definition chars (s : string) : list N := decode 0 0 s.

(** WhiteSpace and LineTerminator of ECMAScript: what [trim], the regular
    expression class [\s] and StringToNumber skip. *)
Definition is_space (c : N) : bool :=
  ((9 <=? c) && (c <=? 13) || (c =? 32) || (c =? 160) || (c =? 5760)
   || (8192 <=? c) && (c <=? 8202) || (c =? 8232) || (c =? 8233)
   || (c =? 8239) || (c =? 8287) || (c =? 12288) || (c =? 65279))%N.

Fixpoint trimStart (cs : list N) : list N :=
  match cs with
  | c :: r => if is_space c then trimStart r else cs
  | [] => []
  end.

Definition trim (cs : list N) : list N :=
  rev (trimStart (rev (trimStart cs))).

(** [s.split(/\s+/)]: the pieces between maximal runs of white space.
    [cur] is the piece being read, reversed; [in_gap] tells that the last
    character read was white space. *)
Fixpoint split_ws (cur : list N) (in_gap : bool) (cs : list N) : list (list N) :=
  match cs with
  | [] => [rev cur]
  | c :: r =>
      if is_space c then
        if in_gap then split_ws cur true r else rev cur :: split_ws [] true r
      else split_ws (c :: cur) false r
  end.

Definition split (cs : list N) : list (list N) := split_ws [] false cs.

(** [s.replace(',', '.')]: a string pattern replaces its first occurrence
    only. *)
Fixpoint replace_comma (s : string) : string :=
  match s with
  | EmptyString => EmptyString
  | String a r =>
      if Ascii.eqb a "," then String "." r else String a (replace_comma r)
  end.

(** [s.startsWith('/')]. *)
Definition startsWith_slash (s : string) : bool :=
  match s with
  | String a _ => Ascii.eqb a "/"
  | EmptyString => false
  end.

End JsString.

Export JsString.

(** ** StringToNumber *)

Module StringToNumber.

Definition digit_of (base : N) (c : N) : option N :=
  let v :=
    (if (48 <=? c) && (c <=? 57) then Some (c - 48)
     else if (97 <=? c) && (c <=? 102) then Some (c - 87)
     else if (65 <=? c) && (c <=? 70) then Some (c - 55)
     else None)%N in
  match v with
  | Some d => if (d <? base)%N then Some d else None
  | None => None
  end.

(** The longest prefix of digits in [base], as a list of digit values, and
    what follows it. *)
Fixpoint span_digits (base : N) (cs : list N) : list N * list N :=
  match cs with
  | c :: r =>
      match digit_of base c with
      | Some d => let (ds, rest) := span_digits base r in (d :: ds, rest)
      | None => ([], cs)
      end
  | [] => ([], [])
  end.

Definition digits_value (base : N) (ds : list N) : Z :=
  fold_left (fun acc d => acc * Z.of_N base + Z.of_N d) ds 0.

(** ExponentPart, when present: [e] or [E], an optional sign, and digits up
    to the end of the literal. *)
Definition exponent_part (cs : list N) : option Z :=
  match cs with
  | [] => Some 0
  | c :: r =>
      if ((c =? 101) || (c =? 69))%N then
        let '(neg, r') :=
          match r with
          | 43%N :: r' => (false, r')
          | 45%N :: r' => (true, r')
          | _ => (false, r)
          end in
        match span_digits 10 r' with
        | ((_ :: _) as ds, []) =>
            Some (if neg then - digits_value 10 ds else digits_value 10 ds)
        | _ => None
        end
      else None
  end.

(** StrUnsignedDecimalLiteral: [Infinity], or digits with an optional
    fraction and exponent, at least one digit before the exponent. *)
Definition unsigned_decimal (neg : bool) (cs : list N) : float :=
  if decide (cs = chars "Infinity") then
    if neg then neg_infinity else infinity
  else
    let (ip, r1) := span_digits 10 cs in
    let (fp, r2) :=
      match r1 with
      | 46%N :: r => span_digits 10 r
      | _ => ([], r1)
      end in
    match ip ++ fp, exponent_part r2 with
    | (_ :: _) as ds, Some e =>
        decimal_value neg (digits_value 10 ds) (e - Z.of_nat (length fp))
    | _, _ => nan
    end.

(** NonDecimalIntegerLiteral: digits in [base] up to the end. *)
Definition non_decimal (base : N) (cs : list N) : float :=
  match span_digits base cs with
  | ((_ :: _) as ds, []) => decimal_value false (digits_value base ds) 0
  | _ => nan
  end.

(** StringToNumber on the code points of the string. *)
Definition string_to_number (cs : list N) : float :=
  match trim cs with
  | [] => PrimFloat.zero
  | 48%N :: (120%N | 88%N) :: r => non_decimal 16 r
  | 48%N :: (111%N | 79%N) :: r => non_decimal 8 r
  | 48%N :: (98%N | 66%N) :: r => non_decimal 2 r
  | 43%N :: r => unsigned_decimal false r
  | 45%N :: r => unsigned_decimal true r
  | r => unsigned_decimal false r
  end.

End StringToNumber.

Export StringToNumber.

(** [Number(s)] for a string [s]. *)
Definition Number (s : string) : float := string_to_number (chars s).

(** ** The calculator *)

(** The object [calcCPL] destructures: each property may be absent. *)
Record lead_data := {
  payout : option float;
  approve : option float;
  trash : option float;
  roi : option float;
}.

Record cpl := { breakeven : float; leadPrice : float }.

Definition calcCPL (p : lead_data) : cpl :=
  let A := (of_field (approve p) / 100)%float in
  let T := (or_zero (trash p) / 100)%float in
  let R := (or_zero (roi p) / 100)%float in
  let breakeven := ((of_field (payout p) * A) / (1 + T))%float in
  let leadPrice := (breakeven / (1 + R))%float in
  {| breakeven := toFixed4 breakeven; leadPrice := toFixed4 leadPrice |}.

(** ** Messages sent with [bot.sendMessage]

    Every handler answers in the chat of the inbound message, so a reply is
    modelled by its text alone; the numbers interpolated in a text are the
    arguments of its constructor. *)
Inductive reply :=
| NeedThreeNumbers                              (* 'Нужно минимум 3 числа: ...' *)
| AllMustBeNumbers                              (* 'Все аргументы должны быть числами.' *)
| CalcResult (roi breakeven leadPrice : float)  (* 'CPL при ROI 0: ... CPL при ROI roi%: ...' *)
| AskPayout                                     (* 'Введите *выплату* ...' *)
| AskApprove                                    (* 'Процент *аппрува* (без %):' *)
| AskTrash                                      (* 'Процент *трэша* ...' *)
| AskRoi                                        (* 'Желаемый *ROI* ...' *)
| WizardDone (val breakeven leadPrice : float)  (* '✅ Готово! ...' *)
| SendNumber                                    (* 'Пожалуйста, отправьте число.' *)
| StateError                                    (* 'Ошибка состояния. Начните заново с /lead' *)
| MenuCalculator                                (* '*Быстрый режим* — одна команда: ...' *)
| MenuChannel                                   (* 'Переходите в наш Telegram-канал ...' *)
| MenuManager.                                  (* 'Откройте чат с менеджером ...' *)

(** ** Quick one-line mode: [/calc]

    [calc_handler m1] is the callback of [bot.onText(/\/calc (.+)/, ...)]
    on the capture [m1 = match[1]]; [calc_args m1] is its [args]. *)
Definition calc_args (m1 : string) : list float :=
  map string_to_number (split (trim (chars m1))).

Definition calc_handler (m1 : string) : reply :=
  let args := calc_args m1 in
  match args with
  | payout :: approve :: trash :: rest =>
      let roi := match rest with r :: _ => r | [] => PrimFloat.zero end in
      if existsb isNaN [payout; approve; trash; roi] then AllMustBeNumbers
      else
        let r := calcCPL {| payout := Some payout; approve := Some approve;
                            trash := Some trash; roi := Some roi |} in
        CalcResult roi (breakeven r) (leadPrice r)
  | _ => NeedThreeNumbers
  end.

(** ** Interactive wizard: [/lead] *)

Record session := { step : string; data : lead_data }.

(** The object literal [{}]. *)
Definition no_data : lead_data :=
  {| payout := None; approve := None; trash := None; roi := None |}.

Definition set_payout (v : float) (d : lead_data) : lead_data :=
  {| payout := Some v; approve := approve d; trash := trash d; roi := roi d |}.
Definition set_approve (v : float) (d : lead_data) : lead_data :=
  {| payout := payout d; approve := Some v; trash := trash d; roi := roi d |}.
Definition set_trash (v : float) (d : lead_data) : lead_data :=
  {| payout := payout d; approve := approve d; trash := Some v; roi := roi d |}.
Definition set_roi (v : float) (d : lead_data) : lead_data :=
  {| payout := payout d; approve := approve d; trash := trash d; roi := Some v |}.

(** The callback of [bot.onText(/\/lead/, ...)]. *)
Definition lead_handler (sessions : gmap Z session) (chatId : Z)
  : gmap Z session * reply :=
  (<[chatId := {| step := "payout"; data := no_data |}]> sessions, AskPayout).

(** Part 2 of the message handler, "Handle /lead wizard steps": from
    [sessions.get(chatId)] to the end of the [switch]. *)
Definition submitValue (sessions : gmap Z session) (chatId : Z) (text : string)
  : gmap Z session * option reply :=
  match sessions !! chatId with
  | None => (sessions, None)
  | Some session =>
      let val := Number (replace_comma text) in
      if isNaN val then (sessions, Some SendNumber)
      else if String.eqb (step session) "payout" then
        (<[chatId := {| step := "approve"; data := set_payout val (data session) |}]> sessions,
         Some AskApprove)
      else if String.eqb (step session) "approve" then
        (<[chatId := {| step := "trash"; data := set_approve val (data session) |}]> sessions,
         Some AskTrash)
      else if String.eqb (step session) "trash" then
        (<[chatId := {| step := "roi"; data := set_trash val (data session) |}]> sessions,
         Some AskRoi)
      else if String.eqb (step session) "roi" then
        let r := calcCPL (set_roi val (data session)) in
        (delete chatId sessions, Some (WizardDone val (breakeven r) (leadPrice r)))
      else (delete chatId sessions, Some StateError)
  end.

(** The labels of [MAIN_MENU]. *)
Definition MAIN_MENU : list string :=
  [ "Калькулятор арбитражника"; "Наш тг-канал";
    "Связаться с менеджером/задать вопрос"; "Реклама в Telegram Ads" ]%string.

(** Part 1 of the message handler of bot.js, "Handle main-menu buttons":
    the reply of the [switch] on [msg.text], [None] in its [default]. *)
Definition menu_reply (text : string) : option reply :=
  if String.eqb text "Калькулятор арбитражника" then Some MenuCalculator
  else if String.eqb text "Наш тг-канал" then Some MenuChannel
  else if String.eqb text "Связаться с менеджером/задать вопрос" then Some MenuManager
  else if String.eqb text "Реклама в Telegram Ads" then Some MenuManager
  else None.

(** [!msg.text || msg.text.startsWith('/')]: a message without text has
    [text = None]. *)
Definition ignored (text : option string) : bool :=
  match text with
  | None => true
  | Some t => String.eqb t "" || startsWith_slash t
  end.

(** The callback of [bot.on('message', ...)] in bot.js. *)
Definition message_handler (sessions : gmap Z session) (chatId : Z)
    (text : option string) : gmap Z session * option reply :=
  match text with
  | None => (sessions, None)
  | Some t =>
      if ignored text then (sessions, None)
      else
        match menu_reply t with
        | Some r => (sessions, Some r)
        | None => submitValue sessions chatId t
        end
  end.

(** The earlier revision of the bot ([src/unnamed/part_000]): its message
    handler has no menu switch. *)
Module Part000.

Definition message_handler (sessions : gmap Z session) (chatId : Z)
    (text : option string) : gmap Z session * option reply :=
  match text with
  | None => (sessions, None)
  | Some t =>
      if ignored text then (sessions, None)
      else submitValue sessions chatId t
  end.

End Part000.

(** * Notions used in the statements *)

(** ** Numbers *)

(** A mantissa and exponent in canonical form for binary64. *)
Definition canonical (m : positive) (e : Z) : Prop :=
  SpecFloat.fexp prec emax (Z.pos (digits2_pos m) + e) = e.

(** The Number that an integer converts to; it is the integer itself below
    [2^53]. *)
Definition number_of_Z (n : Z) : float :=
  SF2Prim (binary_normalize prec emax n 0 false).

(** A Number with the sign [s]. *)
Definition with_sign (s : bool) (x : float) : float :=
  if s then (- x)%float else x.

(** What "rounded to 4 decimal places" means for the Number [y] returned
    for [x]: a Number that is not finite is returned as it is, a zero as
    [0], and a finite [x = (-1)^s * m * 2^e] as the Number nearest to
    [(-1)^s * n / 10^4], where [n] is the integer nearest to
    [m * 2^e * 10^4], ties going away from zero.  When [n] is below [2^53],
    that is for [x] below [9 * 10^11] in size, [y] is what the division of
    the Number [n] by the Number [10000] gives, with the sign of [x]. *)
Definition rounded4 (x y : float) : Prop :=
  match Prim2SF x with
  | S754_nan | S754_infinity _ => y = x
  | S754_zero _ => y = 0%float
  | S754_finite s m e =>
      exists n : Z,
        ((2 * n - 1) * 2 ^ Z.max (- e) 0 <= 2 * Z.pos m * 10 ^ 4 * 2 ^ Z.max e 0
         /\ 2 * Z.pos m * 10 ^ 4 * 2 ^ Z.max e 0 < (2 * n + 1) * 2 ^ Z.max (- e) 0)
        /\ y = decimal_value s n (-4)
        /\ (n < 2 ^ 53 -> y = with_sign s (number_of_Z n / 10000)%float)
  end.

(** ** The formula in exact arithmetic

    The reading of the formula over the rationals, with no rounding but
    the last one: the inputs are the exact values of the Numbers given,
    the four operations are exact, and the result is rounded once to 4
    decimal places, half away from zero. *)

(** The rational that a finite Number stands for. *)
Definition exact_value (x : float) : option Q :=
  match Prim2SF x with
  | S754_zero _ => Some 0%Q
  | S754_finite s m e =>
      Some ((if s then -1 else 1) * inject_Z (Z.pos m) * Qpower 2 e)%Q
  | _ => None
  end.

(** The Number written with the 4 decimals nearest to [q], half away from
    zero. *)
Definition round4_exact (q : Q) : float :=
  decimal_value (negb (Qle_bool 0 q)) (Qfloor (Qabs q * 10000 + (1 # 2))) (-4).

Definition calcCPL_exact (payout approve trash roi : float) : option cpl :=
  match exact_value payout, exact_value approve,
        exact_value trash, exact_value roi with
  | Some P, Some A, Some T, Some R =>
      let breakeven := ((P * A / 100) / (1 + T / 100))%Q in
      let leadPrice := (breakeven / (1 + R / 100))%Q in
      Some {| breakeven := round4_exact breakeven;
              leadPrice := round4_exact leadPrice |}
  | _, _, _, _ => None
  end.

(** A finite number, in the sense of [Number.isFinite]. *)
Definition isFinite (x : float) : bool := negb (is_nan x || is_infinity x).

(** ** Runs of the wizard in one chat *)

(** The two operations of the wizard: [Start] is the [/lead] handler
    (startSession), [Submit text] is [submitValue]. *)
Inductive op := Start | Submit (text : string).

Definition apply_op (sessions : gmap Z session) (chatId : Z) (o : op)
  : gmap Z session * option reply :=
  match o with
  | Start => let (sessions', r) := lead_handler sessions chatId in (sessions', Some r)
  | Submit text => submitValue sessions chatId text
  end.

(** The operations [ops] in turn, all in chat [chatId]: the store they
    leave and the replies they sent. *)
Fixpoint run (sessions : gmap Z session) (chatId : Z) (ops : list op)
  : gmap Z session * list (option reply) :=
  match ops with
  | [] => (sessions, [])
  | o :: ops' =>
      let (sessions1, r) := apply_op sessions chatId o in
      let (sessions2, rs) := run sessions1 chatId ops' in
      (sessions2, r :: rs)
  end.

(** A value of the example written plainly, with a decimal point and with a
    decimal comma. *)
Definition spellings (n : string) : list string :=
  [n; n ++ ".0"; n ++ ",0"]%string.

(** ** Reachable stores *)

(** The stores that the bot can be in: it starts with no session, and the
    store changes by [/lead] and by [submitValue] only. *)
Inductive reachable : gmap Z session -> Prop :=
| reachable_init : reachable ∅
| reachable_lead sessions chatId :
    reachable sessions -> reachable (fst (lead_handler sessions chatId))
| reachable_submit sessions chatId text :
    reachable sessions -> reachable (fst (submitValue sessions chatId text)).

(** A field that is present and holds a number. *)
Definition numeric (o : option float) : Prop :=
  exists v, o = Some v /\ isNaN v = false.

(** The step is one of the four, and the data hold exactly the fields of
    the steps before it. *)
Definition session_ok (s : session) : Prop :=
  let d := data s in
  (step s = "payout"%string
   /\ payout d = None /\ approve d = None /\ trash d = None /\ roi d = None)
  \/ (step s = "approve"%string
      /\ numeric (payout d) /\ approve d = None /\ trash d = None /\ roi d = None)
  \/ (step s = "trash"%string
      /\ numeric (payout d) /\ numeric (approve d) /\ trash d = None /\ roi d = None)
  \/ (step s = "roi"%string
      /\ numeric (payout d) /\ numeric (approve d) /\ numeric (trash d) /\ roi d = None).

(** Every session of the store is well formed. *)
Definition all_ok (sessions : gmap Z session) : Prop :=
  forall chatId s, sessions !! chatId = Some s -> session_ok s.

(** ** Answers and the state of a dialogue *)

(** The value a wizard answer is read as: [Number(msg.text.replace(',', '.'))]. *)
Definition answer_value (text : string) : float := Number (replace_comma text).

(** The answer passes the [Number.isNaN] guard. *)
Definition accepted (text : string) : bool := negb (isNaN (answer_value text)).

(** The session of a chat after [/lead] and the accepted values [vals], in
    the order they were given: none once four values are in. *)
Definition wizard_state (vals : list float) : option session :=
  match vals with
  | [] => Some {| step := "payout"; data := no_data |}
  | [p] => Some {| step := "approve"; data := set_payout p no_data |}
  | [p; a] =>
      Some {| step := "trash"; data := set_approve a (set_payout p no_data) |}
  | [p; a; t] =>
      Some {| step := "roi";
              data := set_trash t (set_approve a (set_payout p no_data)) |}
  | _ => None
  end.

(** No comma among the bytes of the string. *)
Fixpoint comma_free (s : string) : bool :=
  match s with
  | EmptyString => true
  | String a r => negb (Ascii.eqb a ",") && comma_free r
  end.

(** A character that is not white space. *)
Definition non_space (c : N) : Prop := is_space c = false.

(** Only white space. *)
Definition blank (cs : list N) : Prop := Forall (fun c => is_space c = true) cs.

(** [/\/lead/.exec(text)] finds a match: the text holds [/lead]
    somewhere. *)
Fixpoint matches_lead (text : string) : bool :=
  match text with
  | EmptyString => false
  | String _ r => String.prefix "/lead" text || matches_lead r
  end.

(** One inbound message of a chat, [None] being a message without text,
    as the library hands it to the callbacks that bot.js registers: the
    ['message'] callback runs first, then every [onText] callback whose
    pattern matches the text.  Of these only the [/lead] callback writes
    the store; those of [/start] and [/calc] only send. *)
Definition receive (sessions : gmap Z session) (chatId : Z)
    (m : option string) : gmap Z session :=
  let sessions1 := fst (message_handler sessions chatId m) in
  match m with
  | Some text =>
      if matches_lead text then fst (lead_handler sessions1 chatId)
      else sessions1
  | None => sessions1
  end.

(** The messages of one chat received in turn: the store they leave. *)
Fixpoint receive_all (sessions : gmap Z session) (chatId : Z)
    (msgs : list (option string)) : gmap Z session :=
  match msgs with
  | [] => sessions
  | m :: msgs' => receive_all (receive sessions chatId m) chatId msgs'
  end.

(** The message does not start a dialogue. *)
Definition no_lead (m : option string) : Prop :=
  match m with
  | Some text => matches_lead text = false
  | None => True
  end.

(** The texts among the messages that are neither commands nor menu
    buttons. *)
Definition free_texts (msgs : list (option string)) : list string :=
  flat_map (fun m =>
              match m with
              | Some t =>
                  if ignored m then []
                  else match menu_reply t with Some _ => [] | None => [t] end
              | None => []
              end) msgs.

(** * Properties *)

(** ** Binary64 facts used below *)

Section Binary64.

Lemma valid_finite s m e :
  valid_binary (S754_finite s m e) = true -> canonical m e /\ e <= emax - prec.
Proof.
  cbn [SpecFloat.valid_binary]. unfold bounded, canonical_mantissa.
  intros H. apply andb_true_iff in H as [Hc He].
  apply Z.eqb_eq in Hc. apply Z.leb_le in He. split; assumption.
Qed.

Lemma div_eucl_exact a b : 0 < b -> Z.div_eucl (a * b) b = (a, 0).
Proof.
  intros Hb.
  pose proof (Z.div_mul a b ltac:(lia)) as Hd.
  pose proof (Z.mod_mul a b ltac:(lia)) as Hm.
  unfold Z.div, Z.modulo in Hd, Hm.
  destruct (Z.div_eucl (a * b) b) as [q r]. simpl in *. congruence.
Qed.

(** Rounding leaves a canonical mantissa alone. *)
Lemma shr_fexp_canonical m e :
  canonical m e ->
  shr_fexp prec emax (Z.pos m) e loc_Exact
  = ({| shr_m := Z.pos m; shr_r := false; shr_s := false |}, e).
Proof.
  intros Hc. unfold shr_fexp. cbn [Zdigits2 shr_record_of_loc].
  unfold canonical in Hc. rewrite Hc, Z.sub_diag. reflexivity.
Qed.

Lemma binary_round_aux_canonical s m e :
  canonical m e -> e <= emax - prec ->
  binary_round_aux prec emax s (Z.pos m) e loc_Exact = S754_finite s m e.
Proof.
  intros Hc He. unfold binary_round_aux.
  rewrite shr_fexp_canonical by assumption.
  cbn [shr_m loc_of_shr_record round_nearest_even].
  rewrite shr_fexp_canonical by assumption.
  cbn [shr_m]. apply Z.leb_le in He. rewrite He. reflexivity.
Qed.

(** One spare low bit, zero, is shifted out exactly. *)
Lemma binary_round_aux_double s m e :
  canonical m e -> e <= emax - prec -> SpecFloat.emin prec emax < e ->
  binary_round_aux prec emax s (Z.pos m~0) (e - 1) loc_Exact = S754_finite s m e.
Proof.
  intros Hc He Hmin. unfold binary_round_aux.
  assert (Hs : shr_fexp prec emax (Z.pos m~0) (e - 1) loc_Exact
               = ({| shr_m := Z.pos m; shr_r := false; shr_s := false |}, e)).
  { unfold shr_fexp. cbn [Zdigits2 shr_record_of_loc digits2_pos].
    unfold canonical, SpecFloat.fexp in *.
    replace (Z.max (Z.pos (Pos.succ (digits2_pos m)) + (e - 1) - prec)
                   (SpecFloat.emin prec emax) - (e - 1)) with 1 by lia.
    unfold shr. cbn [SpecFloat.iter_pos shr_1 orb]. f_equal. lia. }
  rewrite Hs. cbn [shr_m loc_of_shr_record round_nearest_even].
  rewrite shr_fexp_canonical by assumption.
  cbn [shr_m]. apply Z.leb_le in He. rewrite He. reflexivity.
Qed.

(** Dividing by [1 = 2^52 * 2^-52] returns the dividend. *)
Lemma SFdiv_one (x : spec_float) :
  valid_binary x = true ->
  SFdiv prec emax x (S754_finite false 4503599627370496 (-52)) = x.
Proof.
  destruct x as [s|s| |s m e]; intros Hv;
    [destruct s; reflexivity | destruct s; reflexivity | reflexivity |].
  apply valid_finite in Hv as [Hc He].
  unfold SFdiv, SFdiv_core_binary.
  rewrite xorb_false_r.
  change (Zdigits2 4503599627370496) with 53.
  cbn [Zdigits2].
  pose proof Hc as Hc'. unfold canonical, SpecFloat.fexp in Hc'.
  unfold SpecFloat.fexp.
  change (SpecFloat.emin prec emax) with (-1074) in *.
  change prec with 53 in *. change emax with 1024 in *.
  destruct (Z.eq_dec e (-1074)) as [->|Hne].
  - replace (Z.min (Z.max (Z.pos (digits2_pos m) + -1074 - (53 + -52) - 53) (-1074))
                   (-1074 - -52)) with (-1074) by lia.
    change (-1074 - -52 - -1074) with 52.
    rewrite Z.shiftl_mul_pow2 by lia. change (2 ^ 52) with 4503599627370496.
    rewrite (div_eucl_exact (Z.pos m) 4503599627370496) by lia.
    change (new_location 4503599627370496 0) with loc_Exact.
    apply (binary_round_aux_canonical s m (-1074)); assumption.
  - replace (Z.min (Z.max (Z.pos (digits2_pos m) + e - (53 + -52) - 53) (-1074))
                   (e - -52)) with (e - 1) by lia.
    replace (e - -52 - (e - 1)) with 53 by lia.
    rewrite Z.shiftl_mul_pow2 by lia.
    replace (Z.pos m * 2 ^ 53) with (Z.pos (xO m) * 4503599627370496) by lia.
    rewrite (div_eucl_exact (Z.pos m~0) 4503599627370496) by lia.
    change (new_location 4503599627370496 0) with loc_Exact.
    apply (binary_round_aux_double s m e); try assumption.
    change (SpecFloat.emin prec emax) with (-1074). lia.
Qed.

Lemma div_1 (x : float) : (x / 1)%float = x.
Proof.
  apply Prim2SF_inj. rewrite div_spec. apply SFdiv_one, Prim2SF_valid.
Qed.

(** [iter_pos] is iteration. *)
Lemma iter_pos_nat {A} (f : A -> A) (n : positive) (x : A) :
  SpecFloat.iter_pos f n x = Nat.iter (Pos.to_nat n) f x.
Proof.
  revert x. induction n as [n IH|n IH|]; intros x; cbn [SpecFloat.iter_pos].
  - rewrite !IH, Pos2Nat.inj_xI, Nat.iter_succ_r.
    replace (2 * Pos.to_nat n)%nat with (Pos.to_nat n + Pos.to_nat n)%nat by lia.
    rewrite Nat.iter_add. reflexivity.
  - rewrite !IH, Pos2Nat.inj_xO.
    replace (2 * Pos.to_nat n)%nat with (Pos.to_nat n + Pos.to_nat n)%nat by lia.
    rewrite Nat.iter_add. reflexivity.
  - reflexivity.
Qed.

Lemma shr_1_double_iter (k : nat) (m : positive) :
  Nat.iter k shr_1 {| shr_m := Z.pos (Nat.iter k xO m); shr_r := false; shr_s := false |}
  = {| shr_m := Z.pos m; shr_r := false; shr_s := false |}.
Proof.
  induction k as [|k IH]; [reflexivity|].
  rewrite Nat.iter_succ_r, Nat.iter_succ. cbn [shr_1 orb]. exact IH.
Qed.

Lemma iter_xO_value (k : nat) (m : positive) :
  Z.pos (Nat.iter k xO m) = Z.pos m * 2 ^ Z.of_nat k.
Proof.
  induction k as [|k IH]; [cbn; lia|].
  rewrite Nat2Z.inj_succ, Z.pow_succ_r by lia.
  rewrite Nat.iter_succ, Pos2Z.inj_xO, IH. lia.
Qed.

Lemma iter_xO_digits (k : nat) (m : positive) :
  Z.pos (digits2_pos (Nat.iter k xO m)) = Z.pos (digits2_pos m) + Z.of_nat k.
Proof.
  induction k as [|k IH]; [cbn; lia|].
  rewrite Nat.iter_succ. cbn [digits2_pos]. rewrite Pos2Z.inj_succ, IH. lia.
Qed.

Lemma digits2_pos_size p : digits2_pos p = Pos.size p.
Proof. induction p as [p IH|p IH|]; cbn; congruence. Qed.

Lemma digits2_lower (p : positive) (k : Z) :
  0 <= k -> 2 ^ k <= Z.pos p -> k < Z.pos (digits2_pos p).
Proof.
  intros Hk H. rewrite digits2_pos_size.
  pose proof (Pos.size_gt p) as Hgt.
  apply Pos2Z.pos_lt_pos in Hgt. rewrite Pos2Z.inj_pow in Hgt.
  destruct (Z_lt_le_dec k (Z.pos (Pos.size p))) as [|Hle]; [assumption|].
  exfalso. assert (2 ^ Z.pos (Pos.size p) <= 2 ^ k) by (apply Z.pow_le_mono_r; lia).
  lia.
Qed.

(** An integer mantissa with [k] spare zero bits rounds exactly. *)
Lemma binary_round_aux_shifted s m e :
  canonical m e -> e <= emax - prec -> 0 < e ->
  binary_round_aux prec emax s (Z.pos m * 2 ^ e) 0 loc_Exact = S754_finite s m e.
Proof.
  intros Hc He Hpos.
  assert (Hk : e = Z.of_nat (Z.to_nat e)) by lia.
  set (k := Z.to_nat e) in *.
  rewrite Hk at 1. rewrite <- iter_xO_value.
  unfold binary_round_aux.
  assert (Hs : shr_fexp prec emax (Z.pos (Nat.iter k xO m)) 0 loc_Exact
               = ({| shr_m := Z.pos m; shr_r := false; shr_s := false |}, e)).
  { unfold shr_fexp. cbn [Zdigits2 shr_record_of_loc].
    rewrite iter_xO_digits, <- Hk.
    unfold canonical in Hc. rewrite Z.add_0_r, Hc, Z.sub_0_r.
    unfold shr. destruct e as [|p|p]; try lia.
    rewrite iter_pos_nat. f_equal.
    replace (Pos.to_nat p) with k by lia. apply shr_1_double_iter. }
  rewrite Hs. cbn [shr_m loc_of_shr_record round_nearest_even].
  rewrite shr_fexp_canonical by assumption.
  cbn [shr_m]. apply Z.leb_le in He. rewrite He. reflexivity.
Qed.

(** The decimal [m * 2^e], an integer with at least 17 trailing zero bits,
    is read back as the Number it was printed from. *)
Lemma decimal_value_exact (x : float) s m e :
  Prim2SF x = S754_finite s m e ->
  17 <= e ->
  decimal_value s (Z.pos m * 2 ^ e * 10 ^ 4) (-4) = x.
Proof.
  intros Hx He.
  pose proof (Prim2SF_valid x) as Hv. rewrite Hx in Hv.
  apply valid_finite in Hv as [Hc Hmax].
  assert (Hd : Z.pos (digits2_pos m) = 53).
  { unfold canonical, SpecFloat.fexp in Hc.
    change (SpecFloat.emin prec emax) with (-1074) in Hc. change prec with 53 in Hc. lia. }
  assert (H2e : 0 < 2 ^ e) by (apply Z.pow_pos_nonneg; lia).
  unfold decimal_value.
  destruct (Z.pos m * 2 ^ e * 10 ^ 4) as [|N|N] eqn:HN; try lia.
  rewrite <- (SF2Prim_Prim2SF x), Hx. f_equal.
  change (Z.to_pos (10 ^ Z.max (-4) 0)) with 1%positive.
  change (Z.to_pos (10 ^ Z.max (- -4) 0)) with 10000%positive.
  rewrite Pos.mul_1_r.
  unfold SFdiv, SFdiv_core_binary. rewrite xorb_false_r.
  change (Zdigits2 (Z.pos 10000)) with 14. cbn [Zdigits2].
  assert (HNd : 82 < Z.pos (digits2_pos N)).
  { apply digits2_lower; [lia|]. rewrite <- HN.
    assert (2 ^ 52 <= Z.pos m).
    { rewrite digits2_pos_size in Hd.
      pose proof (Pos.size_le m) as Hle.
      apply Pos2Z.pos_le_pos in Hle. rewrite Pos2Z.inj_pow, Hd in Hle.
      change (2 ^ 53) with (2 * 2 ^ 52) in Hle. lia. }
    assert (2 ^ 17 <= 2 ^ e) by (apply Z.pow_le_mono_r; lia).
    change (10 ^ 4) with 10000.
    replace (2 ^ 82) with (2 ^ 52 * 2 ^ 17 * 2 ^ 13) by reflexivity.
    change (2 ^ 13) with 8192. nia. }
  unfold SpecFloat.fexp.
  change (SpecFloat.emin prec emax) with (-1074). change prec with 53.
  replace (Z.min (Z.max (Z.pos (digits2_pos N) + 0 - (14 + 0) - 53) (-1074)) (0 - 0))
    with 0 by lia.
  change (0 - 0 - 0) with 0. cbv iota.
  rewrite <- HN. change (10 ^ 4) with 10000.
  rewrite (div_eucl_exact (Z.pos m * 2 ^ e) 10000) by lia.
  change (new_location 10000 0) with loc_Exact.
  apply binary_round_aux_shifted; [assumption | assumption | lia].
Qed.

Lemma div_eucl_scale (a b c : Z) :
  0 < b -> 0 < c -> Z.div_eucl (a * c) (b * c) = (a / b, (a mod b) * c).
Proof.
  intros Hb Hc.
  pose proof (Z.div_mul_cancel_r a b c ltac:(lia) ltac:(lia)) as Hd.
  pose proof (Z.mul_mod_distr_r a b c ltac:(lia) ltac:(lia)) as Hm.
  unfold Z.div, Z.modulo in *.
  destruct (Z.div_eucl (a * c) (b * c)) as [q r].
  destruct (Z.div_eucl a b) as [q0 r0]. cbn [fst snd] in *. congruence.
Qed.


Lemma binary_round_aux_opp s m e l :
  SFopp (binary_round_aux prec emax s m e l) = binary_round_aux prec emax (negb s) m e l.
Proof.
  unfold binary_round_aux.
  destruct (shr_fexp prec emax m e l) as [mrs e'].
  destruct (shr_fexp prec emax _ e' loc_Exact) as [mrs' e''].
  destruct (shr_m mrs'); [reflexivity| |reflexivity].
  destruct (e'' <=? emax - prec); reflexivity.
Qed.

Lemma pos_iter_xO_nat (p d : positive) :
  Pos.iter xO p d = Nat.iter (Pos.to_nat d) xO p.
Proof. apply Pos2Nat.inj_iter. Qed.

(** The Number of a positive integer below [2^53]: its digits moved to
    the top of the mantissa. *)
Lemma binary_normalize_small (p : positive) :
  Z.pos p < 2 ^ 53 ->
  let k := 53 - Z.pos (digits2_pos p) in
  0 <= k
  /\ binary_normalize prec emax (Z.pos p) 0 false
     = S754_finite false (Z.to_pos (Z.pos p * 2 ^ k)) (- k)
  /\ valid_binary (S754_finite false (Z.to_pos (Z.pos p * 2 ^ k)) (- k)) = true.
Proof.
  intros Hp k.
  assert (Hd : Z.pos (digits2_pos p) <= 53).
  { destruct (Z_le_gt_dec (Z.pos (digits2_pos p)) 53) as [H|H]; [exact H|exfalso].
    rewrite digits2_pos_size in H.
    pose proof (Pos.size_le p) as Hle.
    apply Pos2Z.pos_le_pos in Hle. rewrite Pos2Z.inj_pow in Hle.
    assert (2 ^ 54 <= 2 ^ Z.pos (Pos.size p)) by (apply Z.pow_le_mono_r; lia).
    change (2 ^ 54) with (2 * 2 ^ 53) in *. lia. }
  assert (Hk : 0 <= k) by (unfold k; lia).
  split; [exact Hk|].
  assert (Hcan : canonical (Z.to_pos (Z.pos p * 2 ^ k)) (- k)).
  { unfold canonical.
    replace (Z.pos p * 2 ^ k) with (Z.pos (Nat.iter (Z.to_nat k) xO p))
      by (rewrite iter_xO_value; f_equal; f_equal; lia).
    rewrite Pos2Z.id, iter_xO_digits. unfold SpecFloat.fexp.
    change (SpecFloat.emin prec emax) with (-1074). change prec with 53.
    unfold k. lia. }
  split.
  - cbn [binary_normalize]. unfold binary_round.
    unfold SpecFloat.fexp at 1.
    change (SpecFloat.emin prec emax) with (-1074). change prec with 53.
    replace (Z.max (Z.pos (digits2_pos p) + 0 - 53) (-1074)) with (- k) by (unfold k; lia).
    unfold shl_align. rewrite Z.sub_0_r.
    destruct k as [|d|d] eqn:Ek; try lia.
    + cbn [Z.opp]. change (2 ^ 0) with 1. rewrite Z.mul_1_r, Pos2Z.id.
      apply binary_round_aux_canonical.
      * change (2 ^ 0) with 1 in Hcan. rewrite Z.mul_1_r, Pos2Z.id in Hcan. exact Hcan.
      * change (emax - prec) with 971. lia.
    + change (- Z.pos d) with (Z.neg d) in *. cbv iota beta.
      rewrite (pos_iter_xO_nat p d).
      replace (Z.pos p * 2 ^ Z.pos d) with (Z.pos (Nat.iter (Pos.to_nat d) xO p)) in *
        by (rewrite iter_xO_value; f_equal; f_equal; lia).
      rewrite Pos2Z.id in *.
      apply binary_round_aux_canonical; [exact Hcan|].
      change (emax - prec) with 971. lia.
  - cbn [SpecFloat.valid_binary]. unfold bounded, canonical_mantissa.
    unfold canonical in Hcan. rewrite Hcan, Z.eqb_refl.
    apply Z.leb_le. change (emax - prec) with 971. lia.
Qed.

Lemma div_eucl_eq (a b : Z) : Z.div_eucl a b = (a / b, a mod b).
Proof. unfold Z.div, Z.modulo. destruct (Z.div_eucl a b). reflexivity. Qed.

Lemma new_location_scale (r : Z) :
  new_location 5497558138880000 (r * 549755813888) = new_location 10000 r.
Proof.
  unfold new_location.
  change (Z.even 5497558138880000) with true. change (Z.even 10000) with true.
  cbv iota. unfold new_location_even.
  destruct (Z.eqb_spec r 0) as [->|Hr]; [reflexivity|].
  destruct (Z.eqb_spec (r * 549755813888) 0) as [H0|_]; [lia|].
  f_equal. change 5497558138880000 with (10000 * 549755813888).
  replace (2 * (r * 549755813888)) with (2 * r * 549755813888) by lia.
  destruct (Z.compare_spec (2 * r * 549755813888) (10000 * 549755813888));
    destruct (Z.compare_spec (2 * r) 10000); first [reflexivity | lia].
Qed.

(** Dividing an integer below [2^53] by [10^4]: the two mantissas may be
    given as they are or in canonical form. *)
Lemma SFdiv_core_small (p : positive) :
  Z.pos p < 2 ^ 53 ->
  let k := 53 - Z.pos (digits2_pos p) in
  SFdiv_core_binary prec emax (Z.pos (Z.to_pos (Z.pos p * 2 ^ k))) (- k)
    5497558138880000 (-39)
  = SFdiv_core_binary prec emax (Z.pos p) 0 10000 0.
Proof.
  intros Hp k.
  destruct (binary_normalize_small p Hp) as (Hk & _ & Hv). fold k in Hk, Hv.
  apply valid_finite in Hv as [Hcan _].
  assert (H2k : 0 < 2 ^ k) by (apply Z.pow_pos_nonneg; lia).
  assert (HM : Z.pos (Z.to_pos (Z.pos p * 2 ^ k)) = Z.pos p * 2 ^ k)
    by (apply Z2Pos.id; lia).
  assert (HdM : Z.pos (digits2_pos (Z.to_pos (Z.pos p * 2 ^ k))) = 53).
  { unfold canonical, SpecFloat.fexp in Hcan.
    change (SpecFloat.emin prec emax) with (-1074) in Hcan. change prec with 53 in Hcan.
    unfold k in *. lia. }
  unfold SFdiv_core_binary. cbn [Zdigits2].
  change (digits2_pos 5497558138880000) with 53%positive.
  change (digits2_pos 10000) with 14%positive.
  rewrite HdM. unfold SpecFloat.fexp.
  change (SpecFloat.emin prec emax) with (-1074). change prec with 53.
  set (dp := Z.pos (digits2_pos p)) in *.
  assert (Hdp : 0 < dp) by (unfold dp; lia).
  replace (Z.min (Z.max (53 + - k - (53 + -39) - 53) (-1074)) (- k - -39))
    with (dp - 67) by (unfold k; lia).
  replace (Z.min (Z.max (dp + 0 - (14 + 0) - 53) (-1074)) (0 - 0))
    with (dp - 67) by (unfold k in Hk; lia).
  replace (- k - -39 - (dp - 67)) with 53 by (unfold k; lia).
  replace (0 - 0 - (dp - 67)) with (67 - dp) by lia.
  destruct (67 - dp) as [|e|e] eqn:He; try (unfold k in Hk; lia).
  rewrite !Z.shiftl_mul_pow2 by lia. rewrite HM.
  replace (Z.pos p * 2 ^ k * 2 ^ 53) with (Z.pos p * 2 ^ Z.pos e * 549755813888).
  2:{ rewrite <- He. rewrite <- !Z.mul_assoc. f_equal.
      change 549755813888 with (2 ^ 39). rewrite <- !Z.pow_add_r by lia.
      f_equal. unfold k. lia. }
  change 5497558138880000 with (10000 * 549755813888) at 1.
  rewrite div_eucl_scale by lia. rewrite div_eucl_eq.
  rewrite new_location_scale. reflexivity.
Qed.

(** Below [2^53], the Number written with the digits of [n] and four
    decimals is the quotient of the Number [n] by the Number [10000]. *)
Lemma decimal_value_quotient (s : bool) (n : Z) :
  0 <= n < 2 ^ 53 ->
  decimal_value s n (-4) = with_sign s (number_of_Z n / 10000)%float.
Proof.
  intros [Hn0 Hn]. destruct n as [|p|p]; try lia.
  - destruct s; reflexivity.
  - destruct (binary_normalize_small p Hn) as (Hk & Hnorm & Hv).
    set (k := 53 - Z.pos (digits2_pos p)) in *.
    rewrite <- (SF2Prim_Prim2SF (with_sign s (number_of_Z (Z.pos p) / 10000)%float)).
    unfold decimal_value. f_equal.
    change (Z.to_pos (10 ^ Z.max (-4) 0)) with 1%positive.
    change (Z.to_pos (10 ^ Z.max (- -4) 0)) with 10000%positive.
    rewrite Pos.mul_1_r.
    assert (Hq : Prim2SF (number_of_Z (Z.pos p) / 10000)%float
                 = SFdiv prec emax (S754_finite false p 0) (S754_finite false 10000 0)).
    { rewrite div_spec. unfold number_of_Z. rewrite Hnorm.
      rewrite (Prim2SF_SF2Prim _ Hv).
      change (Prim2SF 10000) with (S754_finite false 5497558138880000 (-39)).
      unfold SF64div, SFdiv.
      pose proof (SFdiv_core_small p Hn) as Hcore. cbv zeta in Hcore.
      fold k in Hcore. rewrite Hcore. reflexivity. }
    destruct s; unfold with_sign.
    + rewrite opp_spec, Hq. unfold SFdiv.
      destruct (SFdiv_core_binary prec emax (Z.pos p) 0 10000 0) as [[mz ez] lz].
      rewrite binary_round_aux_opp. reflexivity.
    + rewrite Hq. reflexivity.
Qed.

(** [x == 0] holds for the two zeros only. *)
Lemma eqb_zero (x : float) :
  (x =? 0)%float = true -> x = 0%float \/ x = (-0)%float.
Proof.
  rewrite FloatAxioms.eqb_spec. intros H.
  rewrite <- (SF2Prim_Prim2SF x).
  destruct (Prim2SF x) as [[|]|[|]| |[|] m e]; try discriminate H; auto.
Qed.

(** [x == x] fails for NaN only. *)
Lemma eqb_refl_not_nan (x : float) : (x =? x)%float = negb (isNaN x).
Proof. unfold isNaN, is_nan. rewrite negb_involutive. reflexivity. Qed.

End Binary64.

(** ** The calculator *)

(** C5: for payout 20, approve 35, trash 30 and roi 50, [calcCPL] returns
    breakeven 5.3846 and leadPrice 3.5897. *)
Theorem calcCPL_example :
  calcCPL {| payout := Some 20%float; approve := Some 35%float;
             trash := Some 30%float; roi := Some 50%float |}
  = {| breakeven := 5.3846%float; leadPrice := 3.5897%float |}.
Proof. vm_compute. reflexivity. Qed.

(** With [roi] zero or absent the second division is by one. *)
Lemma calcCPL_zero_roi (p : lead_data) :
  (or_zero (roi p) =? 0)%float = true ->
  leadPrice (calcCPL p) = breakeven (calcCPL p).
Proof.
  intros Hr. unfold calcCPL. cbn [leadPrice breakeven].
  assert (H1 : (1 + or_zero (roi p) / 100)%float = 1%float).
  { destruct (eqb_zero _ Hr) as [-> | ->]; reflexivity. }
  rewrite H1, div_1. reflexivity.
Qed.

(** C6: when trash and roi are 0 (given as either zero, or left to their
    defaults), the two outputs of [calcCPL] are the same Number, for every
    payout and approve; JavaScript's [==] holds between them unless they
    are NaN. *)
Theorem calcCPL_zero_trash_roi (p : lead_data) :
  (or_zero (trash p) =? 0)%float = true ->
  (or_zero (roi p) =? 0)%float = true ->
  leadPrice (calcCPL p) = breakeven (calcCPL p)
  /\ (leadPrice (calcCPL p) =? breakeven (calcCPL p))%float
     = negb (isNaN (breakeven (calcCPL p))).
Proof.
  intros _ Hr. rewrite (calcCPL_zero_roi p Hr). split; [reflexivity|].
  apply eqb_refl_not_nan.
Qed.

Lemma calcCPL_zero_trash_roi_witness :
  let p := {| payout := Some 20%float; approve := Some 35%float;
              trash := Some 0%float; roi := None |} in
  leadPrice (calcCPL p) = breakeven (calcCPL p)
  /\ (leadPrice (calcCPL p) =? breakeven (calcCPL p))%float
     = negb (isNaN (breakeven (calcCPL p))).
Proof.
  intros p. apply (calcCPL_zero_trash_roi p); reflexivity.
Defined.

(** [fixed_digits m e] is the integer nearest to [m * 2^e * 10^4], the
    larger one at a tie: rounding half away from zero once the sign is put
    back. *)
Lemma fixed_digits_nearest (m : positive) (e : Z) :
  let n := fixed_digits m e in
  (2 * n - 1) * 2 ^ Z.max (- e) 0 <= 2 * Z.pos m * 10 ^ 4 * 2 ^ Z.max e 0
  /\ 2 * Z.pos m * 10 ^ 4 * 2 ^ Z.max e 0 < (2 * n + 1) * 2 ^ Z.max (- e) 0.
Proof.
  destruct e as [|p|p]; cbn [fixed_digits Z.opp]; change (10 ^ 4) with 10000.
  - change (Z.max (- 0) 0) with 0. change (Z.max 0 0) with 0.
    change (2 ^ 0) with 1. lia.
  - replace (Z.max (- Z.pos p) 0) with 0 by lia.
    replace (Z.max (Z.pos p) 0) with (Z.pos p) by lia.
    change (2 ^ 0) with 1. lia.
  - replace (Z.max (- Z.neg p) 0) with (Z.pos p) by lia.
    replace (Z.max (Z.neg p) 0) with 0 by lia.
    change (2 ^ 0) with 1.
    assert (HD : 0 < 2 ^ Z.pos p) by (apply Z.pow_pos_nonneg; lia).
    rewrite Z.add_1_r, Z.pow_succ_r by lia.
    set (D := 2 ^ Z.pos p) in *.
    set (a := 2 * Z.pos m * 10000 + D).
    pose proof (Z.div_mod a (2 * D) ltac:(lia)) as Hdm.
    pose proof (Z.mod_pos_bound a (2 * D) ltac:(lia)) as Hb.
    cbv zeta. unfold a in *. nia.
Qed.

(** A Number at or above [10^21] is an integer, a multiple of [2^17]. *)
Lemma large_is_integer (x : float) s m e :
  Prim2SF x = S754_finite s m e ->
  (1e21 <=? abs x)%float = true -> 17 <= e.
Proof.
  intros Hx H. rewrite leb_spec, abs_spec, Hx in H.
  cbn [SFabs] in H. unfold SFleb in H.
  change (Prim2SF 1e21) with (S754_finite false 7629394531250000 17) in H.
  cbn [SFcompare] in H.
  destruct (Z.compare_spec 17 e); first [lia | discriminate H].
Qed.

Lemma fixed_digits_nonneg (m : positive) (e : Z) : 0 <= fixed_digits m e.
Proof.
  destruct e as [|p|p]; cbn [fixed_digits].
  - lia.
  - assert (0 < 2 ^ Z.pos p) by (apply Z.pow_pos_nonneg; lia). nia.
  - apply Z.div_pos.
    + assert (0 < 2 ^ Z.pos p) by (apply Z.pow_pos_nonneg; lia). lia.
    + apply Z.pow_pos_nonneg; lia.
Qed.

Lemma toFixed4_rounded4 (x : float) : rounded4 x (toFixed4 x).
Proof.
  unfold rounded4, toFixed4.
  destruct (Prim2SF x) as [s|s| |s m e] eqn:Hx; try reflexivity.
  exists (fixed_digits m e). split; [apply fixed_digits_nearest|].
  assert (Hy : (if (1e21 <=? abs x)%float then x
                else decimal_value s (fixed_digits m e) (-4))
               = decimal_value s (fixed_digits m e) (-4)).
  { destruct (1e21 <=? abs x)%float eqn:Hbig; [|reflexivity].
    pose proof (large_is_integer x s m e Hx Hbig) as He.
    symmetry. destruct e as [|p|p]; try lia.
    apply decimal_value_exact; assumption. }
  rewrite Hy. split; [reflexivity|].
  intros Hn. apply decimal_value_quotient.
  split; [apply fixed_digits_nonneg | exact Hn].
Qed.

(** [rounded4] determines its result. *)
Lemma rounded4_unique (x y y' : float) : rounded4 x y -> rounded4 x y' -> y = y'.
Proof.
  unfold rounded4. destruct (Prim2SF x) as [s|s| |s m e]; try congruence.
  intros (n & [Hl Hu] & -> & _) (n' & [Hl' Hu'] & -> & _).
  assert (HD : 0 < 2 ^ Z.max (- e) 0) by (apply Z.pow_pos_nonneg; lia).
  replace n' with n by nia. reflexivity.
Qed.

(** C1 does not hold when its formula is read in exact arithmetic: for
    payout 25, approve 29 and trash 60 the exact breakeven is 4.53125,
    which rounds to 4.5313, and [calcCPL] returns 4.5312, because the
    binary64 quotient that it rounds is 4.5312499999999991. *)
Lemma exact_formula_differs :
  let p := {| payout := Some 25%float; approve := Some 29%float;
              trash := Some 60%float; roi := Some 0%float |} in
  calcCPL_exact 25 29 60 0
  = Some {| breakeven := 4.5313%float; leadPrice := 4.5313%float |}
  /\ calcCPL p = {| breakeven := 4.5312%float; leadPrice := 4.5312%float |}
  /\ Some (calcCPL p) <> calcCPL_exact 25 29 60 0.
Proof.
  intros p.
  assert (He : calcCPL_exact 25 29 60 0
               = Some {| breakeven := 4.5313%float; leadPrice := 4.5313%float |})
    by (vm_compute; reflexivity).
  assert (Hc : calcCPL p = {| breakeven := 4.5312%float; leadPrice := 4.5312%float |})
    by (vm_compute; reflexivity).
  split; [exact He|]. split; [exact Hc|].
  rewrite He, Hc. intros H.
  apply (f_equal (fun o => match o with
                           | Some c => Prim2SF (breakeven c)
                           | None => S754_nan
                           end)) in H.
  vm_compute in H. discriminate H.
Qed.

(** C1, amended: in binary64 arithmetic, for every payout and approve and
    with trash and roi taken as 0 when absent, [calcCPL] returns the
    Numbers [payout * (approve / 100) / (1 + trash / 100)] and that
    quotient divided by [1 + roi / 100], each operation rounding to the
    nearest Number, and each of the two then rounded to 4 decimal
    places. *)
Theorem calcCPL_binary64 (P A : float) (t r : option float) :
  let T := match t with Some v => v | None => 0%float end in
  let R := match r with Some v => v | None => 0%float end in
  let be := (P * (A / 100) / (1 + T / 100))%float in
  let lp := (be / (1 + R / 100))%float in
  exists y1 y2 : float,
    calcCPL {| payout := Some P; approve := Some A; trash := t; roi := r |}
    = {| breakeven := y1; leadPrice := y2 |}
    /\ rounded4 be y1 /\ rounded4 lp y2.
Proof.
  intros T R be lp. exists (toFixed4 be), (toFixed4 lp). split.
  - subst T R be lp. destruct t as [v|], r as [w|]; reflexivity.
  - split; apply toFixed4_rounded4.
Qed.

(** ** The wizard *)

Section Wizard.

Implicit Types (sessions : gmap Z session) (chatId : Z) (text : string).

(** The switch of [submitValue], branch by branch. *)
Lemma submitValue_none sessions chatId text :
  sessions !! chatId = None ->
  submitValue sessions chatId text = (sessions, None).
Proof. intros H. unfold submitValue. rewrite H. reflexivity. Qed.

Lemma submitValue_nan sessions chatId text s :
  sessions !! chatId = Some s ->
  isNaN (Number (replace_comma text)) = true ->
  submitValue sessions chatId text = (sessions, Some SendNumber).
Proof. intros H Hn. unfold submitValue. rewrite H, Hn. reflexivity. Qed.

Lemma submitValue_payout sessions chatId text s :
  sessions !! chatId = Some s ->
  isNaN (Number (replace_comma text)) = false ->
  step s = "payout"%string ->
  submitValue sessions chatId text
  = (<[chatId := {| step := "approve";
                    data := set_payout (Number (replace_comma text)) (data s) |}]> sessions,
     Some AskApprove).
Proof. intros H Hn Hs. unfold submitValue. rewrite H, Hn, Hs. reflexivity. Qed.

Lemma submitValue_approve sessions chatId text s :
  sessions !! chatId = Some s ->
  isNaN (Number (replace_comma text)) = false ->
  step s = "approve"%string ->
  submitValue sessions chatId text
  = (<[chatId := {| step := "trash";
                    data := set_approve (Number (replace_comma text)) (data s) |}]> sessions,
     Some AskTrash).
Proof. intros H Hn Hs. unfold submitValue. rewrite H, Hn, Hs. reflexivity. Qed.

Lemma submitValue_trash sessions chatId text s :
  sessions !! chatId = Some s ->
  isNaN (Number (replace_comma text)) = false ->
  step s = "trash"%string ->
  submitValue sessions chatId text
  = (<[chatId := {| step := "roi";
                    data := set_trash (Number (replace_comma text)) (data s) |}]> sessions,
     Some AskRoi).
Proof. intros H Hn Hs. unfold submitValue. rewrite H, Hn, Hs. reflexivity. Qed.

Lemma submitValue_roi sessions chatId text s :
  sessions !! chatId = Some s ->
  isNaN (Number (replace_comma text)) = false ->
  step s = "roi"%string ->
  submitValue sessions chatId text
  = (delete chatId sessions,
     Some (let val := Number (replace_comma text) in
           let r := calcCPL (set_roi val (data s)) in
           WizardDone val (breakeven r) (leadPrice r))).
Proof. intros H Hn Hs. unfold submitValue. rewrite H, Hn, Hs. reflexivity. Qed.

(** The reply tells whether the value was rejected. *)
Lemma submitValue_reply_SendNumber sessions chatId text s :
  sessions !! chatId = Some s ->
  snd (submitValue sessions chatId text) = Some SendNumber ->
  isNaN (Number (replace_comma text)) = true.
Proof.
  intros H. unfold submitValue. rewrite H.
  destruct (isNaN _); [reflexivity|].
  repeat (destruct (String.eqb _ _)); cbn; intros [=].
Qed.

(** C7: whatever the store holds, after the [/lead] handler the chat has a
    session at step [payout] with an empty accumulator; a session it had
    before is overwritten with its fields, and the user is asked for the
    payout. *)
Theorem lead_handler_fresh sessions chatId :
  fst (lead_handler sessions chatId) !! chatId
  = Some {| step := "payout"; data := no_data |}
  /\ snd (lead_handler sessions chatId) = AskPayout.
Proof. split; [apply lookup_insert_eq | reflexivity]. Qed.

(** C4: in an active session, at any step, a text that does not convert to
    a number is answered with the request to send a number, and the store
    is left as it was: same step, same data, session still there. *)
Theorem submitValue_not_a_number sessions chatId text s :
  sessions !! chatId = Some s ->
  isNaN (Number (replace_comma text)) = true ->
  submitValue sessions chatId text = (sessions, Some SendNumber)
  /\ fst (submitValue sessions chatId text) !! chatId = Some s.
Proof.
  intros H Hn. rewrite (submitValue_nan _ _ _ s H Hn). split; [reflexivity | exact H].
Qed.

Lemma submitValue_not_a_number_witness :
  let s := {| step := "trash";
              data := set_approve 35 (set_payout 20 no_data) |} in
  let sessions : gmap Z session := {[ 7 := s ]} in
  submitValue sessions 7 "abc" = (sessions, Some SendNumber)
  /\ fst (submitValue sessions 7 "abc") !! 7 = Some s.
Proof.
  intros s sessions.
  apply (submitValue_not_a_number sessions 7 "abc" s); reflexivity.
Defined.

End Wizard.

Section WizardRuns.

Implicit Types (sessions : gmap Z session) (chatId : Z) (text : string).

Lemma run_cons sessions chatId o ops :
  run sessions chatId (o :: ops)
  = (fst (run (fst (apply_op sessions chatId o)) chatId ops),
     snd (apply_op sessions chatId o)
       :: snd (run (fst (apply_op sessions chatId o)) chatId ops)).
Proof.
  cbn [run]. destruct (apply_op sessions chatId o) as [s1 r].
  cbn [fst snd]. destruct (run s1 chatId ops). reflexivity.
Qed.

(** A whole dialogue: four answers that convert to numbers. *)
Lemma run_wizard sessions chatId t1 t2 t3 t4 :
  let v1 := Number (replace_comma t1) in
  let v2 := Number (replace_comma t2) in
  let v3 := Number (replace_comma t3) in
  let v4 := Number (replace_comma t4) in
  isNaN v1 = false -> isNaN v2 = false -> isNaN v3 = false -> isNaN v4 = false ->
  let r := calcCPL {| payout := Some v1; approve := Some v2;
                      trash := Some v3; roi := Some v4 |} in
  fst (run sessions chatId [Start; Submit t1; Submit t2; Submit t3; Submit t4])
    !! chatId = None
  /\ snd (run sessions chatId [Start; Submit t1; Submit t2; Submit t3; Submit t4])
     = [Some AskPayout; Some AskApprove; Some AskTrash; Some AskRoi;
        Some (WizardDone v4 (breakeven r) (leadPrice r))].
Proof.
  intros v1 v2 v3 v4 H1 H2 H3 H4 r.
  rewrite !run_cons. cbn [apply_op lead_handler fst snd run].
  erewrite (submitValue_payout _ chatId t1); [|apply lookup_insert_eq|exact H1|reflexivity].
  cbn [fst snd].
  erewrite (submitValue_approve _ chatId t2); [|apply lookup_insert_eq|exact H2|reflexivity].
  cbn [fst snd].
  erewrite (submitValue_trash _ chatId t3); [|apply lookup_insert_eq|exact H3|reflexivity].
  cbn [fst snd].
  erewrite (submitValue_roi _ chatId t4); [|apply lookup_insert_eq|exact H4|reflexivity].
  cbn [fst snd]. split; [apply lookup_delete_eq | reflexivity].
Qed.

Lemma spellings_20 t : In t (spellings "20") -> Number (replace_comma t) = 20%float.
Proof. intros [<-|[<-|[<-|[]]]]; vm_compute; reflexivity. Qed.

Lemma spellings_35 t : In t (spellings "35") -> Number (replace_comma t) = 35%float.
Proof. intros [<-|[<-|[<-|[]]]]; vm_compute; reflexivity. Qed.

Lemma spellings_30 t : In t (spellings "30") -> Number (replace_comma t) = 30%float.
Proof. intros [<-|[<-|[<-|[]]]]; vm_compute; reflexivity. Qed.

Lemma spellings_50 t : In t (spellings "50") -> Number (replace_comma t) = 50%float.
Proof. intros [<-|[<-|[<-|[]]]]; vm_compute; reflexivity. Qed.

(** C2: [/lead] followed by the answers 20, 35, 30 and 50, each written
    plainly or with a decimal point or comma, is accepted step by step and
    ends with the breakeven and lead price that [/calc 20 35 30 50]
    replies; the session of the chat is then gone, and a further
    [submitValue] in that chat changes nothing and sends nothing. *)
Theorem wizard_matches_calc sessions chatId t1 t2 t3 t4 :
  In t1 (spellings "20") -> In t2 (spellings "35") ->
  In t3 (spellings "30") -> In t4 (spellings "50") ->
  let final := run sessions chatId [Start; Submit t1; Submit t2; Submit t3; Submit t4] in
  exists b l : float,
    calc_handler "20 35 30 50" = CalcResult 50 b l
    /\ snd final = [Some AskPayout; Some AskApprove; Some AskTrash; Some AskRoi;
                    Some (WizardDone 50 b l)]
    /\ fst final !! chatId = None
    /\ forall text, submitValue (fst final) chatId text = (fst final, None).
Proof.
  intros I1 I2 I3 I4 final.
  pose proof (run_wizard sessions chatId t1 t2 t3 t4) as H. cbv zeta in H.
  rewrite (spellings_20 _ I1), (spellings_35 _ I2),
    (spellings_30 _ I3), (spellings_50 _ I4) in H.
  destruct H as [Hnone Hreplies]; [reflexivity..|].
  eexists _, _. split; [|split; [exact Hreplies|split; [exact Hnone|]]].
  - vm_compute. reflexivity.
  - intros text. apply submitValue_none. exact Hnone.
Qed.

Lemma wizard_matches_calc_witness :
  let final := run ∅ 42 [Start; Submit "20,0"; Submit "35"; Submit "30.0"; Submit "50"] in
  exists b l : float,
    calc_handler "20 35 30 50" = CalcResult 50 b l
    /\ snd final = [Some AskPayout; Some AskApprove; Some AskTrash; Some AskRoi;
                    Some (WizardDone 50 b l)]
    /\ fst final !! 42 = None
    /\ forall text, submitValue (fst final) 42 text = (fst final, None).
Proof.
  apply (wizard_matches_calc ∅ 42 "20,0" "35" "30.0" "50"); simpl; auto.
Defined.

End WizardRuns.

Section Validation.

Implicit Types (sessions : gmap Z session) (chatId : Z) (text : string).

(** C3 as stated does not hold: [Infinity] is not a finite number, yet the
    wizard stores it and moves on, and [/calc] computes with it. *)
Lemma infinity_is_accepted :
  let sessions : gmap Z session := {[ 1 := {| step := "payout"; data := no_data |} ]} in
  ~ (snd (submitValue sessions 1 "Infinity") = Some SendNumber
     <-> isFinite (Number (replace_comma "Infinity")) = false)
  /\ submitValue sessions 1 "Infinity"
     = (<[1 := {| step := "approve"; data := set_payout infinity no_data |}]> sessions,
        Some AskApprove)
  /\ calc_args "Infinity 35 30" = [infinity; 35%float; 30%float]
  /\ calc_handler "Infinity 35 30" = CalcResult 0 infinity infinity.
Proof.
  intros sessions.
  assert (Hrun : submitValue sessions 1 "Infinity"
                 = (<[1 := {| step := "approve"; data := set_payout infinity no_data |}]> sessions,
                    Some AskApprove))
    by (vm_compute; reflexivity).
  split; [|split; [exact Hrun | split; vm_compute; reflexivity]].
  rewrite Hrun. cbn [snd]. intros [_ H].
  discriminate H. vm_compute. reflexivity.
Qed.

(** The check of [/calc] looks at the first four arguments only. *)
Lemma calc_handler_rejects (m1 : string) :
  (3 <= length (calc_args m1))%nat ->
  calc_handler m1 = AllMustBeNumbers
  <-> existsb isNaN (firstn 4 (calc_args m1)) = true.
Proof.
  unfold calc_handler. cbv zeta.
  destruct (calc_args m1) as [|a [|b [|c [|d rest]]]]; cbn [length]; try lia; intros _.
  - cbn [firstn existsb]. change (isNaN PrimFloat.zero) with false.
    rewrite !orb_false_r.
    destruct (isNaN a || (isNaN b || isNaN c)); cbv iota; split; intros H;
      try reflexivity; discriminate H.
  - cbn [firstn existsb]. change (firstn 0 rest) with (@nil float).
    cbn [existsb].
    destruct (isNaN a || (isNaN b || (isNaN c || (isNaN d || false))));
      cbv iota; split; intros H; try reflexivity; discriminate H.
Qed.

(** C3, amended: a wizard reply is rejected (the user is asked again and
    the store is left as it was) exactly when its conversion to a number,
    after the first comma is replaced by a point, gives NaN; the one-shot
    command with at least three arguments is rejected exactly when one of
    its first four arguments converts to NaN.  A value that is not finite,
    such as Infinity, is a number and is accepted. *)
Theorem rejected_iff_NaN sessions chatId text s (m1 : string) :
  sessions !! chatId = Some s ->
  (3 <= length (calc_args m1))%nat ->
  (snd (submitValue sessions chatId text) = Some SendNumber
   <-> isNaN (Number (replace_comma text)) = true)
  /\ (isNaN (Number (replace_comma text)) = true ->
      submitValue sessions chatId text = (sessions, Some SendNumber))
  /\ (calc_handler m1 = AllMustBeNumbers
      <-> existsb isNaN (firstn 4 (calc_args m1)) = true).
Proof.
  intros H Hlen. split; [split|split].
  - apply submitValue_reply_SendNumber with (s := s). exact H.
  - intros Hn. rewrite (submitValue_nan _ _ _ s H Hn). reflexivity.
  - apply submitValue_nan with (s := s). exact H.
  - apply calc_handler_rejects. exact Hlen.
Qed.

Lemma rejected_iff_NaN_witness :
  let s := {| step := "approve"; data := set_payout 20 no_data |} in
  let sessions : gmap Z session := {[ 5 := s ]} in
  (snd (submitValue sessions 5 "-Infinity") = Some SendNumber
   <-> isNaN (Number (replace_comma "-Infinity")) = true)
  /\ (isNaN (Number (replace_comma "-Infinity")) = true ->
      submitValue sessions 5 "-Infinity" = (sessions, Some SendNumber))
  /\ (calc_handler "20 abc 30" = AllMustBeNumbers
      <-> existsb isNaN (firstn 4 (calc_args "20 abc 30")) = true).
Proof.
  intros s sessions.
  apply (rejected_iff_NaN sessions 5 "-Infinity" s "20 abc 30");
    [reflexivity | vm_compute; lia].
Defined.

End Validation.

Section Isolation.

Implicit Types (sessions : gmap Z session) (chatId : Z) (text : string).

(** An operation in one chat leaves the sessions of the other chats. *)
Lemma submitValue_other sessions c1 c2 text :
  c1 <> c2 -> fst (submitValue sessions c1 text) !! c2 = sessions !! c2.
Proof.
  intros Hne. unfold submitValue.
  destruct (sessions !! c1) as [s|]; [|reflexivity].
  destruct (isNaN _); [reflexivity|].
  repeat (destruct (String.eqb _ _)); cbn [fst];
    first [apply lookup_insert_ne | apply lookup_delete_ne]; exact Hne.
Qed.

Lemma apply_op_other sessions c1 c2 o :
  c1 <> c2 -> fst (apply_op sessions c1 o) !! c2 = sessions !! c2.
Proof.
  intros Hne. destruct o as [|text]; cbn [apply_op lead_handler fst].
  - apply lookup_insert_ne. exact Hne.
  - apply submitValue_other. exact Hne.
Qed.

(** An operation in a chat reads the session of that chat only. *)
Lemma apply_op_local sessions sessions' c o :
  sessions' !! c = sessions !! c ->
  snd (apply_op sessions' c o) = snd (apply_op sessions c o)
  /\ fst (apply_op sessions' c o) !! c = fst (apply_op sessions c o) !! c.
Proof.
  intros Heq. destruct o as [|text]; cbn [apply_op lead_handler fst snd].
  - split; [reflexivity|]. rewrite !lookup_insert_eq. reflexivity.
  - unfold submitValue. rewrite Heq.
    destruct (sessions !! c) as [s|] eqn:Hs;
      [|split; [reflexivity | cbn [fst]; congruence]].
    destruct (isNaN _); [split; [reflexivity | cbn [fst]; congruence]|].
    repeat (destruct (String.eqb _ _)); cbn [fst snd];
      (split; [reflexivity|]);
      rewrite ?lookup_insert_eq, ?lookup_delete_eq; reflexivity.
Qed.

(** C8: for two distinct chats, a sequence of [/lead] and [submitValue]
    operations in the first leaves the session of the second (its step and
    its data, or its absence) as it was, and what the first chat is
    answered does not depend on the rest of the store: any store with the
    same session for the first chat gives the same replies and the same
    session. *)
Theorem chats_are_isolated sessions c1 c2 (ops : list op) :
  c1 <> c2 ->
  fst (run sessions c1 ops) !! c2 = sessions !! c2
  /\ forall sessions',
       sessions' !! c1 = sessions !! c1 ->
       snd (run sessions' c1 ops) = snd (run sessions c1 ops)
       /\ fst (run sessions' c1 ops) !! c1 = fst (run sessions c1 ops) !! c1.
Proof.
  intros Hne. split.
  - revert sessions. induction ops as [|o ops IH]; intros sessions; [reflexivity|].
    rewrite run_cons. cbn [fst]. rewrite IH. apply apply_op_other. exact Hne.
  - revert sessions. induction ops as [|o ops IH]; intros sessions sessions' Heq.
    + split; [reflexivity | exact Heq].
    + rewrite !run_cons. cbn [fst snd].
      destruct (apply_op_local sessions sessions' c1 o Heq) as [Hr Hs].
      destruct (IH _ _ Hs) as [Hrs Hss].
      rewrite Hr, Hrs. split; [reflexivity | exact Hss].
Qed.

Lemma chats_are_isolated_witness :
  let other := {| step := "roi";
                  data := set_trash 30 (set_approve 35 (set_payout 20 no_data)) |} in
  let sessions : gmap Z session := {[ 2 := other ]} in
  let ops := [Start; Submit "10"; Submit "abc"; Submit "50"] in
  fst (run sessions 1 ops) !! 2 = sessions !! 2
  /\ forall sessions',
       sessions' !! 1 = sessions !! 1 ->
       snd (run sessions' 1 ops) = snd (run sessions 1 ops)
       /\ fst (run sessions' 1 ops) !! 1 = fst (run sessions 1 ops) !! 1.
Proof.
  intros other sessions ops.
  apply (chats_are_isolated sessions 1 2 ops). lia.
Defined.

End Isolation.

Section Invariant.

Implicit Types (sessions : gmap Z session) (chatId : Z) (text : string).

Lemma numeric_Some v : isNaN v = false -> numeric (Some v).
Proof. intros H. exists v. split; [reflexivity | exact H]. Qed.

Lemma all_ok_insert sessions chatId s :
  all_ok sessions -> session_ok s -> all_ok (<[chatId := s]> sessions).
Proof.
  intros Hall Hs c s' Hl. destruct (decide (chatId = c)) as [->|Hne].
  - rewrite lookup_insert_eq in Hl. injection Hl as <-. exact Hs.
  - rewrite lookup_insert_ne in Hl by exact Hne. eapply Hall. exact Hl.
Qed.

Lemma all_ok_delete sessions chatId :
  all_ok sessions -> all_ok (delete chatId sessions).
Proof.
  intros Hall c s' Hl. destruct (decide (chatId = c)) as [->|Hne].
  - rewrite lookup_delete_eq in Hl. discriminate Hl.
  - rewrite lookup_delete_ne in Hl by exact Hne. eapply Hall. exact Hl.
Qed.

Lemma lead_handler_ok sessions chatId :
  all_ok sessions -> all_ok (fst (lead_handler sessions chatId)).
Proof.
  intros Hall. apply all_ok_insert; [exact Hall|].
  left. cbn. repeat split; reflexivity.
Qed.

Lemma submitValue_ok sessions chatId text :
  all_ok sessions -> all_ok (fst (submitValue sessions chatId text)).
Proof.
  intros Hall. unfold submitValue.
  destruct (sessions !! chatId) as [s|] eqn:Hs; [|exact Hall].
  destruct (isNaN _) eqn:Hn; [exact Hall|].
  destruct (Hall _ _ Hs) as [H|[H|[H|H]]];
    destruct H as (Hstep & Hp & Ha & Ht & Hr); rewrite Hstep;
    cbn [String.eqb Ascii.eqb Bool.eqb fst andb];
    try (apply all_ok_delete; exact Hall);
    (apply all_ok_insert; [exact Hall|]).
  - right; left. cbn. auto using numeric_Some.
  - right; right; left. cbn. auto using numeric_Some.
  - right; right; right. cbn. auto 6 using numeric_Some.
Qed.

Lemma reachable_all_ok sessions : reachable sessions -> all_ok sessions.
Proof.
  induction 1 as [|sessions chatId _ IH|sessions chatId text _ IH].
  - intros c s Hl. rewrite lookup_empty in Hl. discriminate Hl.
  - apply lead_handler_ok. exact IH.
  - apply submitValue_ok. exact IH.
Qed.

(** With a valid step the switch never takes its [default]. *)
Lemma submitValue_no_StateError sessions chatId text :
  all_ok sessions ->
  snd (submitValue sessions chatId text) <> Some StateError.
Proof.
  intros Hall. unfold submitValue.
  destruct (sessions !! chatId) as [s|] eqn:Hs; [|discriminate].
  destruct (isNaN _); [discriminate|].
  destruct (Hall _ _ Hs) as [H|[H|[H|H]]];
    destruct H as (Hstep & _); rewrite Hstep;
    cbn [String.eqb Ascii.eqb Bool.eqb snd andb]; discriminate.
Qed.

(** C9: in every store reached by [/lead] and [submitValue], each session
    has one of the four steps and exactly the fields of the steps already
    answered, each holding a number; so [submitValue] never replies with
    the state error, and at step [roi], the only place that calls
    [calcCPL], its argument has payout, approve, trash and roi all set. *)
Theorem reachable_sessions_ok sessions :
  reachable sessions ->
  (forall chatId s, sessions !! chatId = Some s -> session_ok s)
  /\ (forall chatId text,
        snd (submitValue sessions chatId text) <> Some StateError)
  /\ (forall chatId s text,
        sessions !! chatId = Some s -> step s = "roi"%string ->
        isNaN (Number (replace_comma text)) = false ->
        let d := set_roi (Number (replace_comma text)) (data s) in
        snd (submitValue sessions chatId text)
        = Some (WizardDone (Number (replace_comma text))
                  (breakeven (calcCPL d)) (leadPrice (calcCPL d)))
        /\ numeric (payout d) /\ numeric (approve d)
        /\ numeric (trash d) /\ numeric (roi d)).
Proof.
  intros Hr. pose proof (reachable_all_ok _ Hr) as Hall.
  split; [exact Hall|]. split.
  - intros chatId text. apply submitValue_no_StateError. exact Hall.
  - intros chatId s text Hs Hstep Hn d.
    rewrite (submitValue_roi _ _ _ s Hs Hn Hstep). cbn [snd].
    split; [reflexivity|].
    destruct (Hall _ _ Hs) as [H|[H|[H|H]]];
      destruct H as (Hstep' & Hp & Ha & Ht & Hroi);
      rewrite Hstep in Hstep'; try discriminate Hstep'.
    cbn. repeat split; try assumption. apply numeric_Some. exact Hn.
Qed.

Lemma reachable_sessions_ok_witness :
  let sessions := fst (submitValue (fst (lead_handler ∅ 3)) 3 "20") in
  (forall chatId s, sessions !! chatId = Some s -> session_ok s)
  /\ (forall chatId text,
        snd (submitValue sessions chatId text) <> Some StateError)
  /\ (forall chatId s text,
        sessions !! chatId = Some s -> step s = "roi"%string ->
        isNaN (Number (replace_comma text)) = false ->
        let d := set_roi (Number (replace_comma text)) (data s) in
        snd (submitValue sessions chatId text)
        = Some (WizardDone (Number (replace_comma text))
                  (breakeven (calcCPL d)) (leadPrice (calcCPL d)))
        /\ numeric (payout d) /\ numeric (approve d)
        /\ numeric (trash d) /\ numeric (roi d)).
Proof.
  intros sessions.
  apply (reachable_sessions_ok sessions).
  apply reachable_submit, reachable_lead, reachable_init.
Defined.

End Invariant.

Section Routing.

Implicit Types (sessions : gmap Z session) (chatId : Z) (text : string).

(** A text that is neither ignored nor a menu label is a wizard answer,
    in both revisions of the message handler. *)
Lemma message_handler_answer sessions chatId text :
  ignored (Some text) = false -> menu_reply text = None ->
  message_handler sessions chatId (Some text) = submitValue sessions chatId text
  /\ Part000.message_handler sessions chatId (Some text)
     = submitValue sessions chatId text.
Proof.
  intros Hi Hm. unfold message_handler, Part000.message_handler.
  rewrite Hi, Hm. split; reflexivity.
Qed.

(** The answers of the example are such texts. *)
Lemma spellings_answer n text :
  In n ["20"; "35"; "30"; "50"]%string -> In text (spellings n) ->
  ignored (Some text) = false /\ menu_reply text = None.
Proof.
  intros [<-|[<-|[<-|[<-|[]]]]] [<-|[<-|[<-|[]]]]; split; reflexivity.
Qed.

(** The message handlers change the store through [submitValue] only. *)
Lemma message_handler_reachable sessions chatId (text : option string) :
  reachable sessions ->
  reachable (fst (message_handler sessions chatId text))
  /\ reachable (fst (Part000.message_handler sessions chatId text)).
Proof.
  intros Hr. unfold message_handler, Part000.message_handler.
  destruct text as [t|]; [|split; exact Hr].
  destruct (ignored (Some t)); [split; exact Hr|].
  split; [|apply reachable_submit; exact Hr].
  destruct (menu_reply t); [exact Hr | apply reachable_submit; exact Hr].
Qed.

Lemma menu_reply_label text :
  In text MAIN_MENU ->
  ignored (Some text) = false /\ is_Some (menu_reply text).
Proof.
  intros [<-|[<-|[<-|[<-|[]]]]]; (split; [reflexivity | eexists; reflexivity]).
Qed.

(** C10: in bot.js, a message whose text starts with [/] or is one of the
    four labels of the main menu never reaches the wizard code: the store
    is returned as it is, so the session keeps its step and data and no
    value is stored, and the reply, if any, is that of the menu. *)
Theorem commands_and_menu_skip_wizard sessions chatId text :
  startsWith_slash text = true \/ In text MAIN_MENU ->
  message_handler sessions chatId (Some text)
  = (sessions, if startsWith_slash text then None else menu_reply text)
  /\ In (snd (message_handler sessions chatId (Some text)))
       [None; Some MenuCalculator; Some MenuChannel; Some MenuManager].
Proof.
  intros [Hslash|Hmenu].
  - assert (Hi : ignored (Some text) = true).
    { cbn [ignored]. rewrite Hslash. apply orb_true_r. }
    unfold message_handler. rewrite Hi, Hslash. cbn. auto.
  - destruct Hmenu as [<-|[<-|[<-|[<-|[]]]]]; cbn; auto 6.
Qed.

Lemma commands_and_menu_skip_wizard_witness :
  let sessions : gmap Z session :=
    {[ 9 := {| step := "approve"; data := set_payout 20 no_data |} ]} in
  let text := "Наш тг-канал"%string in
  message_handler sessions 9 (Some text)
  = (sessions, if startsWith_slash text then None else menu_reply text)
  /\ In (snd (message_handler sessions 9 (Some text)))
       [None; Some MenuCalculator; Some MenuChannel; Some MenuManager].
Proof.
  intros sessions text.
  apply (commands_and_menu_skip_wizard sessions 9 text).
  right. simpl. auto.
Defined.

End Routing.

(** * Further properties of the code *)

(** ** Numbers that are not finite *)

Section NotFinite.

(** [Number.isNaN] holds for NaN only. *)
Lemma isNaN_nan (x : float) : isNaN x = true -> x = nan.
Proof.
  unfold isNaN, is_nan. rewrite FloatAxioms.eqb_spec. intros H.
  rewrite <- (SF2Prim_Prim2SF x).
  destruct (Prim2SF x) as [[|]|[|]| |[|] m e]; try discriminate H; try reflexivity;
    unfold SFeqb in H; cbn [SFcompare] in H;
    rewrite Z.compare_refl, Pos.compare_cont_refl in H; discriminate H.
Qed.

(** A Number that is not finite is one of three. *)
Lemma not_finite_cases (x : float) :
  isFinite x = false -> x = infinity \/ x = neg_infinity \/ x = nan.
Proof.
  unfold isFinite. rewrite negb_false_iff, orb_true_iff. intros [H|H].
  - right; right. apply isNaN_nan. exact H.
  - unfold is_infinity in H. rewrite FloatAxioms.eqb_spec, abs_spec in H.
    rewrite <- (SF2Prim_Prim2SF x).
    destruct (Prim2SF x) as [[|]|[|]| |[|] m e]; try discriminate H; auto.
Qed.

Lemma mul_nan_l (y : float) : (nan * y)%float = nan.
Proof.
  apply Prim2SF_inj. rewrite mul_spec.
  change (Prim2SF nan) with S754_nan. reflexivity.
Qed.

Lemma mul_nan_r (x : float) : (x * nan)%float = nan.
Proof.
  apply Prim2SF_inj. rewrite mul_spec.
  change (Prim2SF nan) with S754_nan.
  destruct (Prim2SF x); reflexivity.
Qed.

Lemma div_nan_l (y : float) : (nan / y)%float = nan.
Proof.
  apply Prim2SF_inj. rewrite div_spec.
  change (Prim2SF nan) with S754_nan. reflexivity.
Qed.

Lemma div_nan_r (x : float) : (x / nan)%float = nan.
Proof.
  apply Prim2SF_inj. rewrite div_spec.
  change (Prim2SF nan) with S754_nan.
  destruct (Prim2SF x); reflexivity.
Qed.

Lemma add_nan_r (x : float) : (x + nan)%float = nan.
Proof.
  apply Prim2SF_inj. rewrite add_spec.
  change (Prim2SF nan) with S754_nan.
  destruct (Prim2SF x); reflexivity.
Qed.

(** Dividing by zero never gives a finite Number. *)
Lemma div_zero_not_finite (x : float) : isFinite (x / 0)%float = false.
Proof.
  assert (H : Prim2SF (x / 0)%float = S754_nan
              \/ exists s, Prim2SF (x / 0)%float = S754_infinity s).
  { rewrite div_spec. change (Prim2SF 0) with (S754_zero false).
    destruct (Prim2SF x) as [s|s| |s m e]; cbn; eauto. }
  rewrite <- (SF2Prim_Prim2SF (x / 0)).
  destruct H as [-> | [[|] ->]]; reflexivity.
Qed.

(** Nor does dividing a Number that is not finite. *)
Lemma div_not_finite (x y : float) :
  isFinite x = false -> isFinite (x / y)%float = false.
Proof.
  intros Hx.
  assert (H : Prim2SF (x / y)%float = S754_nan
              \/ exists s, Prim2SF (x / y)%float = S754_infinity s).
  { rewrite div_spec.
    destruct (not_finite_cases x Hx) as [-> | [-> | ->]];
      [change (Prim2SF infinity) with (S754_infinity false)
      |change (Prim2SF neg_infinity) with (S754_infinity true)
      |change (Prim2SF nan) with S754_nan];
      destruct (Prim2SF y) as [s|s| |s m e]; cbn; eauto. }
  rewrite <- (SF2Prim_Prim2SF (x / y)).
  destruct H as [-> | [[|] ->]]; reflexivity.
Qed.

Lemma toFixed4_not_finite (x : float) : isFinite x = false -> toFixed4 x = x.
Proof.
  intros Hx. destruct (not_finite_cases x Hx) as [-> | [-> | ->]]; reflexivity.
Qed.

End NotFinite.

(** ** The calculator outside its intended inputs *)

Section CalculatorEdges.

(** X1: [calcCPL] does no validation and never fails: when payout or
    approve is absent or NaN, or trash is NaN, both outputs are NaN. *)
Theorem calcCPL_NaN_in_NaN_out (p : lead_data) :
  isNaN (of_field (payout p)) = true
  \/ isNaN (of_field (approve p)) = true
  \/ isNaN (or_zero (trash p)) = true ->
  calcCPL p = {| breakeven := nan; leadPrice := nan |}.
Proof.
  intros H. unfold calcCPL.
  assert (Hbe : ((of_field (payout p) * (of_field (approve p) / 100))
                 / (1 + or_zero (trash p) / 100))%float = nan).
  { destruct H as [H|[H|H]]; apply isNaN_nan in H; rewrite H.
    - rewrite mul_nan_l, div_nan_l. reflexivity.
    - rewrite div_nan_l, mul_nan_r, div_nan_l. reflexivity.
    - rewrite div_nan_l, add_nan_r, div_nan_r. reflexivity. }
  cbv zeta. rewrite Hbe, div_nan_l. reflexivity.
Qed.

Lemma calcCPL_NaN_in_NaN_out_witness :
  calcCPL {| payout := None; approve := Some 35%float;
             trash := Some 30%float; roi := Some 50%float |}
  = {| breakeven := nan; leadPrice := nan |}.
Proof.
  apply calcCPL_NaN_in_NaN_out. left. reflexivity.
Defined.

(** X2: a rate of -100 makes a denominator zero, and [calcCPL] does not
    guard it: with roi or trash at -100 the lead price is an infinity or
    NaN, and with trash at -100 so is the breakeven. *)
Theorem calcCPL_minus_100 (p : lead_data) :
  or_zero (trash p) = (-100)%float \/ or_zero (roi p) = (-100)%float ->
  isFinite (leadPrice (calcCPL p)) = false
  /\ (or_zero (trash p) = (-100)%float ->
      isFinite (breakeven (calcCPL p)) = false).
Proof.
  intros H. unfold calcCPL. cbn [breakeven leadPrice].
  assert (Ht : or_zero (trash p) = (-100)%float ->
               isFinite ((of_field (payout p) * (of_field (approve p) / 100))
                         / (1 + or_zero (trash p) / 100))%float = false).
  { intros ->. change (1 + -100 / 100)%float with 0%float.
    apply div_zero_not_finite. }
  split.
  - destruct H as [H|H].
    + rewrite toFixed4_not_finite; apply div_not_finite, Ht, H.
    + rewrite H. change (1 + -100 / 100)%float with 0%float.
      rewrite toFixed4_not_finite; apply div_zero_not_finite.
  - intros H'. rewrite toFixed4_not_finite; apply Ht, H'.
Qed.

Lemma calcCPL_minus_100_witness :
  let p := {| payout := Some 20%float; approve := Some 35%float;
              trash := Some (-100)%float; roi := Some 50%float |} in
  isFinite (leadPrice (calcCPL p)) = false
  /\ (or_zero (trash p) = (-100)%float ->
      isFinite (breakeven (calcCPL p)) = false).
Proof.
  intros p. apply (calcCPL_minus_100 p). left. reflexivity.
Defined.

End CalculatorEdges.

(** ** The one-line mode *)

Section OneLine.

(** X3: [/calc] answers that it needs three numbers exactly when its
    argument has fewer than three tokens. *)
Theorem calc_handler_needs_three (m1 : string) :
  calc_handler m1 = NeedThreeNumbers <-> (length (calc_args m1) < 3)%nat.
Proof.
  unfold calc_handler. cbv zeta.
  destruct (calc_args m1) as [|a [|b [|c rest]]]; cbn [length];
    try (split; [lia | reflexivity]).
  split; [|lia].
  destruct (existsb isNaN _); intros H; discriminate H.
Qed.

(** X4: with exactly three tokens the ROI is taken as 0, and a reply with
    a result shows the same number twice: the lead price is the
    breakeven. *)
Theorem calc_handler_three_tokens (m1 : string) :
  length (calc_args m1) = 3%nat ->
  calc_handler m1 = AllMustBeNumbers
  \/ exists b : float, calc_handler m1 = CalcResult 0 b b.
Proof.
  unfold calc_handler. cbv zeta.
  destruct (calc_args m1) as [|a [|b [|c [|d rest]]]]; cbn [length];
    intros Hlen; try discriminate Hlen.
  destruct (existsb isNaN _); [left; reflexivity | right].
  eexists. f_equal. apply calcCPL_zero_roi. reflexivity.
Qed.

Lemma calc_handler_three_tokens_witness :
  calc_handler "20 35 30" = AllMustBeNumbers
  \/ exists b : float, calc_handler "20 35 30" = CalcResult 0 b b.
Proof.
  apply (calc_handler_three_tokens "20 35 30"). vm_compute. reflexivity.
Defined.

(** X5: tokens after the fourth are never looked at: two arguments whose
    first four tokens convert to the same numbers get the same reply. *)
Theorem calc_handler_first_four (m1 m2 : string) :
  firstn 4 (calc_args m1) = firstn 4 (calc_args m2) ->
  calc_handler m1 = calc_handler m2.
Proof.
  unfold calc_handler. cbv zeta.
  destruct (calc_args m1) as [|a1 [|b1 [|c1 [|d1 r1]]]];
    destruct (calc_args m2) as [|a2 [|b2 [|c2 [|d2 r2]]]];
    cbn [firstn]; intros H; try discriminate H; try reflexivity;
    injection H; intros; subst; reflexivity.
Qed.

Lemma calc_handler_first_four_witness :
  calc_handler "20 35 30 50 abc" = calc_handler "20 35 30 50".
Proof.
  apply (calc_handler_first_four "20 35 30 50 abc" "20 35 30 50").
  vm_compute. reflexivity.
Defined.

End OneLine.

(** ** White space: [trim], [split] and [Number] *)

Section WhiteSpace.

Lemma trimStart_blank (ws l : list N) :
  blank ws -> trimStart (ws ++ l) = trimStart l.
Proof.
  induction 1 as [|c ws Hc _ IH]; [reflexivity|].
  cbn [app trimStart]. rewrite Hc. exact IH.
Qed.

Lemma trimStart_all_blank (ws : list N) : blank ws -> trimStart ws = [].
Proof.
  intros H. rewrite <- (app_nil_r ws). rewrite trimStart_blank by exact H.
  reflexivity.
Qed.

(** What [trimStart] removes is white space, and what it leaves does not
    start with white space. *)
Lemma trimStart_split (l : list N) :
  exists ws, blank ws /\ l = ws ++ trimStart l
             /\ match trimStart l with c :: _ => non_space c | [] => True end.
Proof.
  induction l as [|c l (ws & Hws & Hl & Hh)].
  - exists []. repeat split. constructor.
  - cbn [trimStart]. destruct (is_space c) eqn:Hc.
    + exists (c :: ws). split; [constructor; assumption|].
      split; [cbn; congruence | exact Hh].
    + exists []. split; [constructor|]. split; [reflexivity | exact Hc].
Qed.

Lemma trimStart_app (l l2 : list N) :
  trimStart l <> [] -> trimStart (l ++ l2) = trimStart l ++ l2.
Proof.
  induction l as [|c l IH]; [intros H; contradiction H; reflexivity|].
  cbn [app trimStart]. destruct (is_space c); [exact IH | reflexivity].
Qed.

Lemma blank_rev (ws : list N) : blank ws -> blank (rev ws).
Proof. apply Forall_rev. Qed.

Lemma blank_app (ws1 ws2 : list N) : blank ws1 -> blank ws2 -> blank (ws1 ++ ws2).
Proof. intros H1 H2. apply Forall_app. split; assumption. Qed.

(** White space around a string does not change what [trim] returns. *)
Lemma trim_pad (ws1 cs ws2 : list N) :
  blank ws1 -> blank ws2 -> trim (ws1 ++ cs ++ ws2) = trim cs.
Proof.
  intros H1 H2. unfold trim. rewrite trimStart_blank by exact H1.
  destruct (trimStart cs) as [|c r] eqn:Hcs.
  - destruct (trimStart_split cs) as (ws & Hws & Hl & _).
    rewrite Hcs, app_nil_r in Hl. subst cs.
    rewrite (trimStart_all_blank (ws ++ ws2)) by (apply blank_app; assumption).
    reflexivity.
  - rewrite trimStart_app by (rewrite Hcs; discriminate).
    rewrite Hcs, rev_app_distr.
    rewrite trimStart_blank by (apply blank_rev; exact H2). reflexivity.
Qed.





(** X7: [Number] of a string of white space only, as of the empty string,
    is 0, and white space around a string does not change its value. *)
Theorem string_to_number_white_space (ws1 cs ws2 : list N) :
  blank ws1 -> blank ws2 ->
  string_to_number (ws1 ++ ws2) = 0%float
  /\ string_to_number (ws1 ++ cs ++ ws2) = string_to_number cs.
Proof.
  intros H1 H2. unfold string_to_number. split.
  - unfold trim. rewrite (trimStart_all_blank (ws1 ++ ws2)) by (apply blank_app; assumption).
    reflexivity.
  - rewrite trim_pad by assumption. reflexivity.
Qed.

Lemma string_to_number_white_space_witness :
  string_to_number (chars "  " ++ chars " ") = 0%float
  /\ string_to_number (chars "  " ++ chars "12.5" ++ chars " ")
     = string_to_number (chars "12.5").
Proof.
  apply (string_to_number_white_space (chars "  ") (chars "12.5") (chars " "));
    repeat constructor.
Defined.

End WhiteSpace.

(** ** Wizard answers *)

Section Answers.

Implicit Types (sessions : gmap Z session) (chatId : Z) (text : string).

(** X8: a reply of white space only is not rejected: it converts to 0,
    which is stored as the value of the current step. *)
Theorem blank_answer_is_zero sessions chatId text s :
  sessions !! chatId = Some s ->
  blank (chars (replace_comma text)) ->
  answer_value text = 0%float
  /\ snd (submitValue sessions chatId text) <> Some SendNumber
  /\ (step s = "payout"%string ->
      submitValue sessions chatId text
      = (<[chatId := {| step := "approve"; data := set_payout 0 (data s) |}]> sessions,
         Some AskApprove)).
Proof.
  intros Hs Hb.
  assert (Hv : Number (replace_comma text) = 0%float).
  { unfold Number, string_to_number, trim.
    rewrite (trimStart_all_blank _ Hb). reflexivity. }
  split; [exact Hv|]. split.
  - intros H. apply (submitValue_reply_SendNumber _ _ _ s Hs) in H.
    rewrite Hv in H. discriminate H.
  - intros Hstep.
    rewrite (submitValue_payout _ _ _ s Hs); [|rewrite Hv; reflexivity | exact Hstep].
    rewrite Hv. reflexivity.
Qed.

Lemma blank_answer_is_zero_witness :
  let s := {| step := "payout"; data := no_data |} in
  let sessions : gmap Z session := {[ 4 := s ]} in
  answer_value "  " = 0%float
  /\ snd (submitValue sessions 4 "  ") <> Some SendNumber
  /\ (step s = "payout"%string ->
      submitValue sessions 4 "  "
      = (<[4 := {| step := "approve"; data := set_payout 0 (data s) |}]> sessions,
         Some AskApprove)).
Proof.
  intros s sessions.
  apply (blank_answer_is_zero sessions 4 "  " s); [reflexivity | repeat constructor].
Defined.

Lemma replace_comma_free (s : string) : comma_free s = true -> replace_comma s = s.
Proof.
  induction s as [|a r IH]; [reflexivity|].
  cbn [comma_free replace_comma]. intros H.
  apply andb_true_iff in H as [Ha Hr]. apply negb_true_iff in Ha.
  rewrite Ha, (IH Hr). reflexivity.
Qed.

Lemma replace_comma_first (a b : string) :
  comma_free a = true ->
  replace_comma (a ++ String "," b) = (a ++ String "." b)%string.
Proof.
  induction a as [|c a IH]; [reflexivity|].
  cbn [comma_free]. intros H.
  apply andb_true_iff in H as [Hc Ha]. apply negb_true_iff in Hc.
  change (String c a ++ String "," b)%string with (String c (a ++ String "," b)).
  change (String c a ++ String "." b)%string with (String c (a ++ String "." b)).
  cbn [replace_comma]. rewrite Hc, (IH Ha). reflexivity.
Qed.

(** X9: the wizard replaces the first comma only.  An answer with one
    comma is treated as the same answer with a point in its place; with a
    second comma the rest is left as it is. *)
Theorem decimal_comma sessions chatId (a b : string) :
  comma_free a = true ->
  replace_comma (a ++ String "," b) = (a ++ String "." b)%string
  /\ (comma_free b = true ->
      submitValue sessions chatId (a ++ String "," b)
      = submitValue sessions chatId (a ++ String "." b)).
Proof.
  intros Ha. split; [apply replace_comma_first; exact Ha|].
  intros Hb. unfold submitValue.
  rewrite (replace_comma_first a b Ha).
  rewrite (replace_comma_free (a ++ String "." b)); [reflexivity|].
  clear -Ha Hb. induction a as [|c a IH]; [exact Hb|].
  change (String c a ++ String "." b)%string with (String c (a ++ String "." b)).
  cbn [comma_free] in *.
  apply andb_true_iff in Ha as [Hc Ha]. rewrite Hc, (IH Ha). reflexivity.
Qed.

Lemma decimal_comma_witness :
  replace_comma ("35" ++ String "," "5") = ("35" ++ String "." "5")%string
  /\ (comma_free "5" = true ->
      submitValue ∅ 1 ("35" ++ String "," "5")
      = submitValue ∅ 1 ("35" ++ String "." "5")).
Proof.
  apply (decimal_comma ∅ 1 "35" "5"). reflexivity.
Defined.

End Answers.

(** ** The course of a dialogue *)

Section Dialogue.

Implicit Types (sessions : gmap Z session) (chatId : Z) (text : string).

Lemma submitValue_dom sessions chatId text :
  dom (fst (submitValue sessions chatId text)) ⊆ dom sessions.
Proof.
  unfold submitValue.
  destruct (sessions !! chatId) as [s|] eqn:Hs; [|reflexivity].
  assert (Hin : chatId ∈ dom sessions) by (apply elem_of_dom; eauto).
  destruct (isNaN _); [reflexivity|].
  repeat (destruct (String.eqb _ _)); cbn [fst];
    rewrite ?dom_insert_L, ?dom_delete_L;
    intros c Hc; rewrite ?elem_of_union, ?elem_of_singleton, ?elem_of_difference in Hc;
    intuition congruence.
Qed.

(** X10: only [/lead] opens a session.  [submitValue] and the message
    handlers of both revisions never add a chat to the store, whatever the
    text. *)
Theorem only_lead_opens_a_session sessions chatId text (msg_text : option string) :
  dom (fst (submitValue sessions chatId text)) ⊆ dom sessions
  /\ dom (fst (message_handler sessions chatId msg_text)) ⊆ dom sessions
  /\ dom (fst (Part000.message_handler sessions chatId msg_text)) ⊆ dom sessions.
Proof.
  split; [apply submitValue_dom|].
  unfold message_handler, Part000.message_handler.
  destruct msg_text as [t|]; [|split; reflexivity].
  destruct (ignored (Some t)); [split; reflexivity|].
  split; [|apply submitValue_dom].
  destruct (menu_reply t); [reflexivity | apply submitValue_dom].
Qed.

(** The session of the chat follows the accepted values. *)
Lemma run_submits_state sessions chatId (texts : list string) (vs : list float) :
  sessions !! chatId = wizard_state vs ->
  fst (run sessions chatId (map Submit texts)) !! chatId
  = wizard_state (vs ++ map answer_value (List.filter accepted texts)).
Proof.
  revert sessions vs. induction texts as [|t texts IH]; intros sessions vs Hs.
  - cbn. rewrite app_nil_r. exact Hs.
  - cbn [map]. rewrite run_cons. cbn [fst apply_op List.filter].
    destruct (accepted t) eqn:Ha; unfold accepted, answer_value in Ha.
    + apply negb_true_iff in Ha. cbn [map].
      replace (vs ++ answer_value t :: map answer_value (List.filter accepted texts))
        with ((vs ++ [answer_value t]) ++ map answer_value (List.filter accepted texts))
        by (rewrite <- app_assoc; reflexivity).
      apply IH. unfold answer_value.
      destruct vs as [|a [|b [|c [|d r]]]]; cbn [wizard_state app] in *.
      * rewrite (submitValue_payout _ _ _ _ Hs Ha eq_refl). apply lookup_insert_eq.
      * rewrite (submitValue_approve _ _ _ _ Hs Ha eq_refl). apply lookup_insert_eq.
      * rewrite (submitValue_trash _ _ _ _ Hs Ha eq_refl). apply lookup_insert_eq.
      * rewrite (submitValue_roi _ _ _ _ Hs Ha eq_refl). apply lookup_delete_eq.
      * rewrite (submitValue_none _ _ _ Hs). cbn [fst]. rewrite Hs. reflexivity.
    + apply negb_false_iff in Ha.
      apply IH. destruct (wizard_state vs) as [s|] eqn:Hw.
      * rewrite (submitValue_nan _ _ _ s Hs Ha). exact Hs.
      * rewrite (submitValue_none _ _ _ Hs). exact Hs.
Qed.

(** X11: after [/lead], the session of the chat is determined by the
    answers that were accepted, in order: rejected answers change
    nothing, each accepted answer fills the next field and moves one step
    on without touching the fields already filled, and from the fourth
    accepted answer on there is no session. *)
Theorem wizard_follows_accepted_answers sessions chatId (texts : list string) :
  fst (run sessions chatId (Start :: map Submit texts)) !! chatId
  = wizard_state (map answer_value (List.filter accepted texts)).
Proof.
  rewrite run_cons. cbn [fst apply_op lead_handler].
  apply (run_submits_state _ _ texts []). apply lookup_insert_eq.
Qed.

Lemma run_app sessions chatId (ops1 ops2 : list op) :
  run sessions chatId (ops1 ++ ops2)
  = (fst (run (fst (run sessions chatId ops1)) chatId ops2),
     snd (run sessions chatId ops1)
       ++ snd (run (fst (run sessions chatId ops1)) chatId ops2)).
Proof.
  revert sessions. induction ops1 as [|o ops1 IH]; intros sessions.
  - cbn [app run fst snd]. destruct (run sessions chatId ops2). reflexivity.
  - cbn [app]. rewrite !run_cons, IH. reflexivity.
Qed.

Lemma run_local sessions sessions' chatId (ops : list op) :
  sessions' !! chatId = sessions !! chatId ->
  snd (run sessions' chatId ops) = snd (run sessions chatId ops)
  /\ fst (run sessions' chatId ops) !! chatId = fst (run sessions chatId ops) !! chatId.
Proof.
  revert sessions sessions'. induction ops as [|o ops IH]; intros sessions sessions' Heq.
  - split; [reflexivity | exact Heq].
  - rewrite !run_cons. cbn [fst snd].
    destruct (apply_op_local sessions sessions' chatId o Heq) as [Hr Hs].
    destruct (IH _ _ Hs) as [Hrs Hss].
    rewrite Hr, Hrs. split; [reflexivity | exact Hss].
Qed.

(** X12: a new [/lead] discards the dialogue so far: what follows it (the
    replies and the session of the chat) is the same as after a [/lead] in
    any other store. *)
Theorem lead_restarts sessions sessions' chatId (ops1 ops2 : list op) :
  snd (run sessions chatId (ops1 ++ Start :: ops2))
  = snd (run sessions chatId ops1) ++ snd (run sessions' chatId (Start :: ops2))
  /\ fst (run sessions chatId (ops1 ++ Start :: ops2)) !! chatId
     = fst (run sessions' chatId (Start :: ops2)) !! chatId.
Proof.
  rewrite run_app. cbn [fst snd].
  set (mid := fst (run sessions chatId ops1)).
  rewrite !(run_cons _ _ Start). cbn [fst snd apply_op lead_handler].
  destruct (run_local (<[chatId := {| step := "payout"; data := no_data |}]> sessions')
              (<[chatId := {| step := "payout"; data := no_data |}]> mid)
              chatId ops2) as [Hr Hs].
  { rewrite !lookup_insert_eq. reflexivity. }
  rewrite Hr, Hs. split; reflexivity.
Qed.

(** X13: in a chat without a session the message handler of bot.js changes
    nothing and answers menu buttons only; free text gets no reply, and so
    does every later message until a [/lead]. *)
Theorem no_session_no_dialogue sessions chatId (msg_text : option string)
    (texts : list string) :
  sessions !! chatId = None ->
  message_handler sessions chatId msg_text
  = (sessions,
     match msg_text with
     | Some t => if ignored msg_text then None else menu_reply t
     | None => None
     end)
  /\ run sessions chatId (map Submit texts) = (sessions, map (fun _ => None) texts).
Proof.
  intros Hs. split.
  - unfold message_handler. destruct msg_text as [t|]; [|reflexivity].
    destruct (ignored (Some t)); [reflexivity|].
    destruct (menu_reply t); [reflexivity|]. apply submitValue_none. exact Hs.
  - induction texts as [|t texts IH]; [reflexivity|].
    cbn [map]. rewrite run_cons. cbn [apply_op].
    rewrite (submitValue_none _ _ _ Hs). cbn [fst snd]. rewrite IH. reflexivity.
Qed.

Lemma no_session_no_dialogue_witness :
  message_handler ∅ 8 (Some "hello"%string)
  = (∅,
     match Some "hello"%string with
     | Some t => if ignored (Some "hello"%string) then None else menu_reply t
     | None => None
     end)
  /\ run ∅ 8 (map Submit ["20"; "35"]%string) = (∅, map (fun _ => None) ["20"; "35"]%string).
Proof.
  apply (no_session_no_dialogue ∅ 8 (Some "hello"%string) ["20"; "35"]%string).
  reflexivity.
Defined.

End Dialogue.

(** ** The menu and the two revisions *)

Section Menu.

Implicit Types (sessions : gmap Z session) (chatId : Z) (text : string).

Lemma menu_reply_In text : is_Some (menu_reply text) -> In text MAIN_MENU.
Proof.
  unfold menu_reply, MAIN_MENU.
  destruct (String.eqb text "Калькулятор арбитражника") eqn:E1;
    [apply String.eqb_eq in E1; subst; cbn; auto|].
  destruct (String.eqb text "Наш тг-канал") eqn:E2;
    [apply String.eqb_eq in E2; subst; cbn; auto|].
  destruct (String.eqb text "Связаться с менеджером/задать вопрос") eqn:E3;
    [apply String.eqb_eq in E3; subst; cbn; auto|].
  destruct (String.eqb text "Реклама в Telegram Ads") eqn:E4;
    [apply String.eqb_eq in E4; subst; cbn; auto 6|].
  intros [r Hr]. discriminate Hr.
Qed.

(** X14: the buttons of the keyboard sent with the greeting and the cases
    of the menu switch are the same four texts: every button is answered
    by the switch, none is taken for a command, and no other text is
    answered by the switch. *)
Theorem menu_buttons_are_handled text :
  (In text MAIN_MENU <-> is_Some (menu_reply text))
  /\ (In text MAIN_MENU -> ignored (Some text) = false).
Proof.
  split; [split|].
  - intros [<-|[<-|[<-|[<-|[]]]]]; eexists; reflexivity.
  - apply menu_reply_In.
  - intros [<-|[<-|[<-|[<-|[]]]]]; reflexivity.
Qed.

(** X15: the menu switch is all that bot.js added to the message handler:
    on a text that is not a menu button, and on a message without text,
    the handlers of the two revisions do the same. *)
Theorem revisions_agree_off_menu sessions chatId text :
  ~ In text MAIN_MENU ->
  message_handler sessions chatId (Some text)
  = Part000.message_handler sessions chatId (Some text)
  /\ message_handler sessions chatId None = Part000.message_handler sessions chatId None.
Proof.
  intros Hnot. split; [|reflexivity].
  unfold message_handler, Part000.message_handler.
  destruct (ignored (Some text)); [reflexivity|].
  destruct (menu_reply text) as [r|] eqn:Hm; [|reflexivity].
  exfalso. apply Hnot, menu_reply_In. rewrite Hm. eexists; reflexivity.
Qed.

Lemma revisions_agree_off_menu_witness :
  let sessions : gmap Z session := {[ 6 := {| step := "payout"; data := no_data |} ]} in
  message_handler sessions 6 (Some "12,5"%string)
  = Part000.message_handler sessions 6 (Some "12,5"%string)
  /\ message_handler sessions 6 None = Part000.message_handler sessions 6 None.
Proof.
  intros sessions. apply (revisions_agree_off_menu sessions 6 "12,5").
  simpl. intros [H|[H|[H|[H|[]]]]]; discriminate H.
Defined.

End Menu.

(** ** The two modes share the calculator *)

Section TwoModes.

Implicit Types (sessions : gmap Z session) (chatId : Z) (text : string).

(** X16: whenever the four answers of a dialogue are accepted with the
    values of the first four arguments of a [/calc] command, the dialogue
    ends with the ROI, breakeven and lead price that the command replies. *)
Theorem wizard_and_calc_agree sessions chatId (m1 t1 t2 t3 t4 : string)
    (rest : list float) :
  calc_args m1
  = answer_value t1 :: answer_value t2 :: answer_value t3 :: answer_value t4 :: rest ->
  accepted t1 = true -> accepted t2 = true ->
  accepted t3 = true -> accepted t4 = true ->
  exists b l : float,
    calc_handler m1 = CalcResult (answer_value t4) b l
    /\ snd (run sessions chatId [Start; Submit t1; Submit t2; Submit t3; Submit t4])
       = [Some AskPayout; Some AskApprove; Some AskTrash; Some AskRoi;
          Some (WizardDone (answer_value t4) b l)].
Proof.
  unfold accepted. intros Hargs H1 H2 H3 H4.
  apply negb_true_iff in H1, H2, H3, H4.
  destruct (run_wizard sessions chatId t1 t2 t3 t4 H1 H2 H3 H4) as [_ Hr].
  eexists _, _. split; [|exact Hr].
  unfold calc_handler. cbv zeta. rewrite Hargs. cbn [existsb].
  unfold answer_value in *. rewrite H1, H2, H3, H4. reflexivity.
Qed.

Lemma wizard_and_calc_agree_witness :
  exists b l : float,
    calc_handler "12.5 40 10 25 x" = CalcResult (answer_value "25") b l
    /\ snd (run ∅ 1 [Start; Submit "12,5"; Submit "40"; Submit " 10"; Submit "25"])
       = [Some AskPayout; Some AskApprove; Some AskTrash; Some AskRoi;
          Some (WizardDone (answer_value "25") b l)].
Proof.
  apply (wizard_and_calc_agree ∅ 1 "12.5 40 10 25 x" "12,5" "40" " 10" "25" [nan]);
    vm_compute; reflexivity.
Defined.

End TwoModes.

(** ** Decimal commas in the one-line mode *)

Section Commas.

(** A comma is not a digit, so the scan for digits stops before it. *)
Lemma span_digits_keeps (base c : N) (cs : list N) :
  digit_of base c = None -> In c cs -> In c (snd (span_digits base cs)).
Proof.
  intros Hc. induction cs as [|x cs IH]; [intros []|].
  intros Hin. cbn [span_digits].
  destruct (digit_of base x) as [d|] eqn:Hx; [|exact Hin].
  destruct Hin as [-> | Hin]; [congruence|].
  specialize (IH Hin). destruct (span_digits base cs) as [ds rest]. exact IH.
Qed.

Lemma non_decimal_comma (base : N) (cs : list N) :
  In 44%N cs -> non_decimal base cs = nan.
Proof.
  intros Hin. unfold non_decimal.
  pose proof (span_digits_keeps base 44 cs eq_refl Hin) as H.
  destruct (span_digits base cs) as [ds rest]. cbn [snd] in H.
  destruct ds; [reflexivity|]. destruct rest; [destruct H | reflexivity].
Qed.

Lemma exponent_part_comma (cs : list N) :
  In 44%N cs -> exponent_part cs = None.
Proof.
  intros Hin. unfold exponent_part.
  destruct cs as [|c r]; [destruct Hin|].
  destruct ((c =? 101) || (c =? 69))%N eqn:Hc; [|reflexivity].
  assert (Hr : In 44%N r).
  { destruct Hin as [-> | H]; [vm_compute in Hc; discriminate Hc | exact H]. }
  assert (Hr' : forall r', In 44%N r' ->
            match span_digits 10 r' with
            | ((_ :: _) as ds, []) => Some (digits_value 10 ds)
            | _ => None
            end = None /\
            match span_digits 10 r' with
            | ((_ :: _) as ds, []) => Some (- digits_value 10 ds)
            | _ => None
            end = None).
  { intros r' Hin'. pose proof (span_digits_keeps 10 44 r' eq_refl Hin') as H.
    destruct (span_digits 10 r') as [ds rest]. cbn [snd] in H.
    destruct ds; [split; reflexivity|]. destruct rest; [destruct H | split; reflexivity]. }
  assert (Hp : In 44%N (snd (match r with
                              | 43%N :: r' => (false, r')
                              | 45%N :: r' => (true, r')
                              | _ => (false, r)
                              end))).
  { clear -Hr.
    repeat match goal with
           | |- context [match ?p with _ => _ end] => is_var p; destruct p
           end;
      cbn [snd]; try exact Hr;
      destruct Hr as [Hr|Hr]; first [discriminate Hr | exact Hr]. }
  destruct (match r with
            | 43%N :: r' => (false, r')
            | 45%N :: r' => (true, r')
            | _ => (false, r)
            end) as [neg r']. cbn [snd] in Hp.
  destruct (Hr' r' Hp) as [Hpos Hneg].
  destruct (span_digits 10 r') as [ds l].
  destruct ds; [reflexivity|]. destruct l; [|reflexivity].
  destruct neg; discriminate.
Qed.

Lemma unsigned_decimal_comma (neg : bool) (cs : list N) :
  In 44%N cs -> unsigned_decimal neg cs = nan.
Proof.
  intros Hin. unfold unsigned_decimal.
  destruct (decide (cs = chars "Infinity")) as [->|_].
  { exfalso. vm_compute in Hin. intuition discriminate. }
  pose proof (span_digits_keeps 10 44 cs eq_refl Hin) as H1.
  destruct (span_digits 10 cs) as [ip r1]. cbn [snd] in H1.
  assert (H2 : In 44%N (snd (match r1 with
                              | 46%N :: r => span_digits 10 r
                              | _ => ([], r1)
                              end))).
  { clear -H1.
    repeat match goal with
           | |- context [match ?p with _ => _ end] => is_var p; destruct p
           end;
      cbn [snd]; try exact H1;
      destruct H1 as [H1|H1]; try discriminate H1;
      apply (span_digits_keeps 10 44 _ eq_refl H1). }
  destruct (match r1 with
            | 46%N :: r => span_digits 10 r
            | _ => ([], r1)
            end) as [fp r2]. cbn [snd] in H2.
  rewrite (exponent_part_comma r2 H2).
  destruct (ip ++ fp); reflexivity.
Qed.

Lemma string_to_number_comma (cs : list N) :
  In 44%N cs -> string_to_number cs = nan.
Proof.
  intros Hin. unfold string_to_number.
  assert (Ht : In 44%N (trim cs)).
  { unfold trim. rewrite <- in_rev.
    assert (Hkeep : forall l, In 44%N l -> In 44%N (trimStart l)).
    { induction l as [|c l IH]; [intros []|].
      intros H. cbn [trimStart]. destruct (is_space c) eqn:Hc; [|exact H].
      destruct H as [-> | H]; [vm_compute in Hc; discriminate Hc | apply IH, H]. }
    apply Hkeep. rewrite <- in_rev. apply Hkeep, Hin. }
  revert Ht. generalize (trim cs). intros l Ht.
  repeat match goal with
         | |- context [match ?p with _ => _ end] => is_var p; destruct p
         end;
    first [ exfalso; exact Ht
          | apply non_decimal_comma | apply unsigned_decimal_comma ];
    first [ exact Ht
          | destruct Ht as [Ht|[Ht|Ht]]; first [discriminate Ht | exact Ht]
          | destruct Ht as [Ht|Ht]; first [discriminate Ht | exact Ht] ].
Qed.

(** X17: the one-line mode does not take a decimal comma: when one of the
    first four tokens holds a comma, [/calc] with at least three tokens
    answers that all arguments must be numbers. *)
Theorem calc_rejects_commas (m1 : string) :
  (3 <= length (calc_args m1))%nat ->
  Exists (fun tok => In 44%N tok) (firstn 4 (split (trim (chars m1)))) ->
  calc_handler m1 = AllMustBeNumbers.
Proof.
  intros Hlen Hex. apply calc_handler_rejects; [exact Hlen|].
  unfold calc_args. rewrite firstn_map.
  apply existsb_exists. apply Exists_exists in Hex as (tok & Hin & Hc).
  exists (string_to_number tok). split.
  - apply in_map. apply list_elem_of_In. exact Hin.
  - rewrite (string_to_number_comma tok Hc). reflexivity.
Qed.

Lemma calc_rejects_commas_witness : calc_handler "20 35,5 30" = AllMustBeNumbers.
Proof.
  apply (calc_rejects_commas "20 35,5 30"); [vm_compute; lia|].
  vm_compute. apply Exists_cons_tl, Exists_cons_hd.
  right; right; left. reflexivity.
Defined.

End Commas.

(** ** A dialogue among other messages *)

Section Interleaved.

Implicit Types (sessions : gmap Z session) (chatId : Z) (text : string).

Lemma receive_all_app sessions chatId (msgs1 msgs2 : list (option string)) :
  receive_all sessions chatId (msgs1 ++ msgs2)
  = receive_all (receive_all sessions chatId msgs1) chatId msgs2.
Proof.
  revert sessions. induction msgs1 as [|m msgs1 IH]; intros sessions; [reflexivity|].
  cbn [app receive_all]. apply IH.
Qed.

(** Messages that do not match [/lead] reach the store through the wizard
    code only, and only the free texts among them. *)
Lemma receive_all_run sessions chatId (msgs : list (option string)) :
  Forall no_lead msgs ->
  receive_all sessions chatId msgs
  = fst (run sessions chatId (map Submit (free_texts msgs))).
Proof.
  intros Hall. revert sessions.
  induction Hall as [|m msgs Hm _ IH]; intros sessions; [reflexivity|].
  cbn [receive_all free_texts flat_map]. fold (free_texts msgs).
  rewrite IH. unfold receive, message_handler.
  destruct m as [t|]; [|reflexivity].
  cbn [no_lead] in Hm. rewrite Hm.
  destruct (ignored (Some t)); [reflexivity|].
  destruct (menu_reply t); [reflexivity|].
  cbn [app map]. rewrite run_cons. reflexivity.
Qed.

(** X18: the session of a chat depends only on what came since the last
    message matching [/lead]: it is the one determined by the accepted
    answers among the free texts received since, whatever came before and
    whatever other commands, menu buttons and messages without text came
    in between. *)
Theorem dialogue_since_last_lead sessions chatId
    (before after : list (option string)) (text0 : string) :
  matches_lead text0 = true ->
  Forall no_lead after ->
  receive_all sessions chatId (before ++ Some text0 :: after) !! chatId
  = wizard_state (map answer_value (List.filter accepted (free_texts after))).
Proof.
  intros Hlead Hafter.
  rewrite receive_all_app. cbn [receive_all].
  rewrite (receive_all_run _ _ after Hafter).
  apply (run_submits_state _ _ (free_texts after) []).
  unfold receive. rewrite Hlead. apply lookup_insert_eq.
Qed.

Lemma dialogue_since_last_lead_witness :
  let before := [Some "/lead"; Some "20"]%string in
  let after := [Some "35"; Some "Наш тг-канал"; Some "/start"; None; Some "abc"]%string in
  receive_all ∅ 1 (before ++ Some "x /lead"%string :: after) !! 1
  = wizard_state (map answer_value (List.filter accepted (free_texts after))).
Proof.
  intros before after.
  apply (dialogue_since_last_lead ∅ 1 before after "x /lead"); [reflexivity|].
  repeat constructor.
Defined.

End Interleaved.
